(** * Custom DB role resource and Global Clusters client of the MongoDB Atlas
      Terraform provider: a shallow embedding and its properties

    The development follows two Go files:
    - the resource controller of custom database roles (schema,
      Create / Read / Update / Delete / Import, [validateActions] and the
      expand / flatten helpers);
    - the vendored client file [mongodbatlas/global_clusters.go].

    Go values of static type [interface{}] are modelled by the inductive type
    [value]; a failed type assertion (a Go panic) is the [None] of [option].
    Go's [error] results are explicit return values, as in the source.  The
    Terraform attribute store, the role API and the HTTP client are not part
    of the two files; they are interfaces (type classes), with one small
    implementation each on which the theorems are exercised. *)

From stdpp Require Import gmap strings list sorting.
From Stdlib Require Import Ascii.

Set Warnings "-register-all,-clear-no-such-hyp".
Open Scope string_scope.

(** ** Go values behind [interface{}] *)

Inductive value : Type :=
  | VNil                                     (* the nil interface value *)
  | VBool (b : bool)                         (* bool *)
  | VString (s : string)                     (* string *)
  | VSlice (l : list value)                  (* []interface{} *)
  | VMap (m : gmap string value)             (* map[string]interface{} *)
  | VMapSlice (l : list (gmap string value)) (* []map[string]interface{} *).

(** [x.(T)]: the single-value type assertion panics unless the dynamic type
    is [T]; in particular it panics on nil. *)
Definition assertBool (v : value) : option bool :=
  match v with VBool b => Some b | _ => None end.
Definition assertString (v : value) : option string :=
  match v with VString s => Some s | _ => None end.
Definition assertSlice (v : value) : option (list value) :=
  match v with VSlice l => Some l | _ => None end.
Definition assertMap (v : value) : option (gmap string value) :=
  match v with VMap m => Some m | _ => None end.

(** [m[k]] on a [map[string]interface{}]: a missing key reads as nil. *)
Definition index (m : gmap string value) (k : string) : value :=
  default VNil (m !! k).

(** ** The typed request structs of the client ([matlas]) *)

Record Resource := mkResource {
  Resource_Db : string;
  Resource_Collection : string;
  Resource_Cluster : bool }.

Record Action := mkAction {
  Action_Action : string;
  Action_Resources : list Resource }.

Record InheritedRole := mkInheritedRole {
  InheritedRole_Db : string;
  InheritedRole_Role : string }.

Record CustomDBRole := mkCustomDBRole {
  RoleName : string;
  Actions : list Action;
  InheritedRoles : list InheritedRole }.

(** Go errors of the controller.  The controller only creates errors with
    [fmt.Errorf] / [errors.New] and only reads other errors through their
    message ([%s]), so an error is its message. *)
Inductive error : Type := ErrorString (msg : string).
Definition Error (e : error) : string := let 'ErrorString m := e in m.

(** ** validateActions *)

Definition errClusterExclusive : error :=
  ErrorString "setting `actions.resources.cluster` is exclusive with `actions.resources.collection_name` and `actions.resources.database_name`".
Definition errResourceMissing : error :=
  ErrorString "either `actions.resources.cluster` or both `actions.resources.collection_name` and `actions.resources.database_name` must be set".

(** The body of the inner loop: [Some err] is the early [return]. *)
Definition validateResource (resource : Resource) : option error :=
  if Resource_Cluster resource then
    if negb (String.eqb (Resource_Collection resource) "")
       || negb (String.eqb (Resource_Db resource) "")
    then Some errClusterExclusive else None
  else
    if String.eqb (Resource_Collection resource) ""
       || String.eqb (Resource_Db resource) ""
    then Some errResourceMissing else None.

(** [for _, resource := range action.Resources { ... }] *)
Fixpoint validateResources (resources : list Resource) : option error :=
  match resources with
  | [] => None
  | resource :: rest =>
      match validateResource resource with
      | Some err => Some err
      | None => validateResources rest
      end
  end.

(** [for _, action := range customDBRoleReq.Actions { ... }] *)
Fixpoint validateActionList (actions : list Action) : option error :=
  match actions with
  | [] => None
  | action :: rest =>
      match validateResources (Action_Resources action) with
      | Some err => Some err
      | None => validateActionList rest
      end
  end.

Definition validateActions (customDBRoleReq : CustomDBRole) : option error :=
  validateActionList (Actions customDBRoleReq).

(** The two shapes of a resource entry. *)
Definition wholeCluster (r : Resource) : Prop :=
  Resource_Cluster r = true ∧ Resource_Db r = "" ∧ Resource_Collection r = "".
Definition scoped (r : Resource) : Prop :=
  Resource_Cluster r = false ∧ Resource_Db r ≠ "" ∧ Resource_Collection r ≠ "".
Definition wellShaped (r : Resource) : Prop := wholeCluster r ∨ scoped r.

Lemma eqb_empty_true (s : string) : String.eqb s "" = true ↔ s = "".
Proof. apply String.eqb_eq. Qed.

Lemma eqb_empty_false (s : string) : String.eqb s "" = false ↔ s ≠ "".
Proof. apply String.eqb_neq. Qed.

Lemma validateResource_None (r : Resource) :
  validateResource r = None ↔ wellShaped r.
Proof.
  unfold validateResource, wellShaped, wholeCluster, scoped.
  destruct r as [db coll cl]; simpl.
  destruct cl, (String.eqb coll "") eqn:Hc, (String.eqb db "") eqn:Hd; simpl;
    rewrite ?eqb_empty_true, ?eqb_empty_false in *;
    split; intros H; try discriminate; try naive_solver.
Qed.

Lemma validateResource_cases (r : Resource) :
  validateResource r = None
  ∨ (Resource_Cluster r = true ∧ validateResource r = Some errClusterExclusive)
  ∨ (Resource_Cluster r = false ∧ validateResource r = Some errResourceMissing).
Proof.
  unfold validateResource. destruct (Resource_Cluster r).
  - destruct (_ || _); auto.
  - destruct (_ || _); auto.
Qed.

Lemma validateResources_None (rs : list Resource) :
  validateResources rs = None ↔ Forall wellShaped rs.
Proof.
  induction rs as [|r rs IH]; simpl.
  - split; [constructor | done].
  - rewrite Forall_cons, <- IH, <- validateResource_None.
    destruct (validateResource r); naive_solver.
Qed.

Lemma validateResources_error (rs : list Resource) (e : error) :
  validateResources rs = Some e → e = errClusterExclusive ∨ e = errResourceMissing.
Proof.
  induction rs as [|r rs IH]; simpl; [done|].
  destruct (validateResource_cases r) as [-> | [[_ ->] | [_ ->]]]; naive_solver.
Qed.

Lemma validateActionList_None (acts : list Action) :
  validateActionList acts = None
  ↔ Forall (λ a, Forall wellShaped (Action_Resources a)) acts.
Proof.
  induction acts as [|a acts IH]; simpl.
  - split; [constructor | done].
  - rewrite Forall_cons, <- IH, <- validateResources_None.
    destruct (validateResources _); naive_solver.
Qed.

Lemma validateActionList_error (acts : list Action) (e : error) :
  validateActionList acts = Some e → e = errClusterExclusive ∨ e = errResourceMissing.
Proof.
  induction acts as [|a acts IH]; simpl; [done|].
  destruct (validateResources _) eqn:E; [|done].
  intros [= <-]. by eapply validateResources_error.
Qed.

(** C1.  [validateActions] accepts a role (returns no error) exactly when
    every resource entry of every action is whole-cluster (flag set, database
    and collection empty) or scoped (flag unset, database and collection both
    non-empty); the two shapes exclude each other; and a rejected role gets
    one of the two descriptive errors of the source. *)
Theorem validateActions_accepts_iff_well_shaped (role : CustomDBRole) :
  (validateActions role = None
     ↔ Forall (λ a, Forall wellShaped (Action_Resources a)) (Actions role))
  ∧ (∀ r, ¬ (wholeCluster r ∧ scoped r))
  ∧ (validateActions role = None
     ∨ validateActions role = Some errClusterExclusive
     ∨ validateActions role = Some errResourceMissing).
Proof.
  split; [apply validateActionList_None|]. split.
  - intros r [[H1 _] [H2 _]]. congruence.
  - unfold validateActions. destruct (validateActionList _) as [e|] eqn:E; [|by left].
    right. apply validateActionList_error in E as [-> | ->]; auto.
Qed.

(** ** Collaborators of the controller

    The attribute store [*schema.ResourceData] of the Terraform framework,
    the identifier codec [encodeStateID] / [decodeStateID] and the role
    service [conn.CustomDBRoles] of the client are used by the controller but
    defined elsewhere; they are interfaces here. *)

Class Store (ResourceData : Type) := {
  rd_Get : ResourceData → string → value;               (* d.Get(key) *)
  rd_GetOk : ResourceData → string → value * bool;      (* d.GetOk(key) *)
  rd_HasChange : ResourceData → string → bool;          (* d.HasChange(key) *)
  rd_Id : ResourceData → string;                        (* d.Id() *)
  rd_SetId : string → ResourceData → ResourceData;      (* d.SetId(id) *)
  rd_Set : string → value → ResourceData → ResourceData * option error;
                                                        (* d.Set(key, v) *)
  encodeStateID : gmap string string → string;
  decodeStateID : string → gmap string string }.

(** Each call of the role service may change the remote side: the service
    is a transition on an abstract [World]. *)
Class CustomDBRolesService (World : Type) := {
  roles_Create : string → CustomDBRole → World → (error + CustomDBRole) * World;
  roles_Get : string → string → World → (error + CustomDBRole) * World;
  roles_Update : string → string → CustomDBRole → World → (error + CustomDBRole) * World;
  roles_Delete : string → string → World → option error * World }.

(** The network calls a controller operation has issued, oldest first. *)
Inductive Call : Type :=
  | CallCreate (projectID : string) (role : CustomDBRole)
  | CallGet (projectID roleName : string)
  | CallUpdate (projectID roleName : string) (role : CustomDBRole)
  | CallDelete (projectID roleName : string).

(** [ids[k]] on a [map[string]string]: a missing key reads as the empty string. *)
Definition part (ids : gmap string string) (k : string) : string :=
  default "" (ids !! k).

(** ** strings.SplitN, for a count [n >= 0]

    With an empty separator Go splits after each UTF-8 sequence; that case
    is not modelled, and [SplitN] gives [None] for it. *)

(** [cut s sep]: the text before and after the first occurrence of [sep]
    in [s] (what [Index] finds), if there is one. *)
Fixpoint cut (s sep : string) : option (string * string) :=
  if String.prefix sep s then Some ("", String.substring (String.length sep) (String.length s - String.length sep) s)
  else match s with
       | EmptyString => None
       | String c s' =>
           match cut s' sep with
           | Some (a, b) => Some (String c a, b)
           | None => None
           end
       end.

(** The loop of [genSplit], which runs for a non-empty separator only: cut
    at most [n - 1] times, the rest is the last part. *)
Fixpoint splitLoop (s sep : string) (n : nat) : list string :=
  match n with
  | 0 => []
  | S n' =>
      match n' with
      | 0 => [s]
      | S _ =>
          match cut s sep with
          | None => [s]
          | Some (a, rest) => a :: splitLoop rest sep n'
          end
      end
  end.

Definition SplitN (s sep : string) (n : nat) : option (list string) :=
  if String.eqb sep "" then None else Some (splitLoop s sep n).

Definition errImportFormat : error :=
  ErrorString "import format error: to import a custom db role use the format {project_id}-{role_name}".

(** The first lines of [resourceMongoDBAtlasCustomDBRoleImportState]: split
    the identifier and name the two parts.  The separator is ["-"], so
    [SplitN] always gives a list. *)
Definition importParts (id : string) : error + (string * string) :=
  match SplitN id "-" 2 with
  | Some parts =>
      if bool_decide (length parts ≠ 2) then inl errImportFormat
      else inr (default "" (parts !! 0), default "" (parts !! 1))
  | None => inl errImportFormat
  end.

(** [noDash s]: the separator does not occur in [s]. *)
Definition noDash (s : string) : Prop := ∀ x y, s ≠ x +:+ "-" +:+ y.

Lemma substring_all (s : string) : String.substring 0 (String.length s) s = s.
Proof. induction s as [|c s IH]; simpl; [done | by rewrite IH]. Qed.

Lemma prefix_dash (c : ascii) (s : string) :
  String.prefix "-" (String c s) = bool_decide (c = "-"%char).
Proof.
  unfold String.prefix. destruct (ascii_dec "-" c) as [<-|Hne].
  - by destruct s.
  - symmetry. apply bool_decide_eq_false. congruence.
Qed.

Lemma cut_dash_cons (c : ascii) (s : string) :
  cut (String c s) "-" =
    if decide (c = "-"%char) then Some ("", s)
    else match cut s "-" with
         | Some (a, b) => Some (String c a, b)
         | None => None
         end.
Proof.
  change (cut (String c s) "-") with
    (if String.prefix "-" (String c s)
     then Some ("", String.substring 1 (String.length (String c s) - 1) (String c s))
     else match cut s "-" with
          | Some (a, b) => Some (String c a, b)
          | None => None
          end).
  rewrite prefix_dash. case_decide as Hc.
  - rewrite bool_decide_eq_true_2 by done.
    cbn [String.length String.substring Nat.sub]. by rewrite ?Nat.sub_0_r, substring_all.
  - by rewrite bool_decide_eq_false_2.
Qed.

Lemma cut_dash_Some (s a b : string) :
  cut s "-" = Some (a, b) → s = a +:+ "-" +:+ b ∧ noDash a.
Proof.
  revert a b. induction s as [|c s IH]; intros a b; [done|].
  rewrite cut_dash_cons. case_decide as Hc.
  - intros [= <- <-]. subst c. split; [done|]. intros x y; by destruct x.
  - destruct (cut s "-") as [[a' b']|] eqn:E; [|done].
    intros [= <- <-]. destruct (IH a' b' eq_refl) as [-> Hno]. split; [done|].
    intros [|c' x] y; simpl; intros [= ? Heq]; [done|]. by eapply Hno.
Qed.

Lemma cut_dash_None (s : string) : cut s "-" = None → noDash s.
Proof.
  induction s as [|c s IH]; [intros _ x y; by destruct x|].
  rewrite cut_dash_cons. case_decide as Hc; [done|].
  destruct (cut s "-") as [[a' b']|] eqn:E; [done|]. intros _.
  intros [|c' x] y; simpl; intros [= ? Heq]; [done|]. by eapply IH.
Qed.

Lemma importParts_spec (id : string) :
  match importParts id with
  | inl err => err = errImportFormat ∧ noDash id
  | inr (projectID, roleName) => id = projectID +:+ "-" +:+ roleName ∧ noDash projectID
  end.
Proof.
  unfold importParts. simpl. destruct (cut id "-") as [[a b]|] eqn:E; simpl.
  - by apply cut_dash_Some.
  - split; [done|]. by apply cut_dash_None.
Qed.

(** ** The expand / flatten helpers *)

(** One iteration of the loop of [expandActionResources]. *)
Definition expandResource (v : value) : option Resource :=
  resourceMap ← assertMap v;
  cluster ← assertBool (index resourceMap "cluster");
  if (cluster : bool) then
    c ← assertBool (index resourceMap "cluster");
    Some {| Resource_Db := ""; Resource_Collection := ""; Resource_Cluster := c |}
  else
    db ← assertString (index resourceMap "database_name");
    coll ← assertString (index resourceMap "collection_name");
    Some {| Resource_Db := db; Resource_Collection := coll; Resource_Cluster := false |}.

Definition expandActionResources (resources : list value) : option (list Resource) :=
  mapM expandResource resources.

(** One iteration of the loop of [expandActions]. *)
Definition expandAction (a : value) : option Action :=
  actionMap ← assertMap a;
  action ← assertString (index actionMap "action");
  rs ← assertSlice (index actionMap "resources");
  resources ← expandActionResources rs;
  Some {| Action_Action := action; Action_Resources := resources |}.

(** One iteration of the loop of [expandInheritedRoles]. *)
Definition expandInheritedRole (r : value) : option InheritedRole :=
  roleMap ← assertMap r;
  db ← assertString (index roleMap "database_name");
  role ← assertString (index roleMap "role_name");
  Some {| InheritedRole_Db := db; InheritedRole_Role := role |}.

Definition flattenResource (v : Resource) : gmap string value :=
  if Resource_Cluster v then
    {[ "cluster" := VBool (Resource_Cluster v) ]}
  else
    {[ "database_name" := VString (Resource_Db v);
       "collection_name" := VString (Resource_Collection v) ]}.

Definition flattenActionResources (resources : list Resource) : list (gmap string value) :=
  flattenResource <$> resources.

Definition flattenAction (v : Action) : gmap string value :=
  {[ "action" := VString (Action_Action v);
     "resources" := VMapSlice (flattenActionResources (Action_Resources v)) ]}.

Definition flattenActions (actions : list Action) : list (gmap string value) :=
  flattenAction <$> actions.

Definition flattenInheritedRole (v : InheritedRole) : gmap string value :=
  {[ "database_name" := VString (InheritedRole_Db v);
     "role_name" := VString (InheritedRole_Role v) ]}.

Definition flattenInheritedRoles (roles : list InheritedRole) : list (gmap string value) :=
  flattenInheritedRole <$> roles.

(** *** From a flattened list back to what expand reads

    [flatten*] return [[]map[string]interface{}]; [expand*] read
    [[]interface{}].  For inherited roles the two differ by the boxing of
    each map as an [interface{}] only. *)

Definition storedInheritedRoles (l : list (gmap string value)) : list value :=
  VMap <$> l.

(** A typed resource that carries nothing besides the flag when the flag is set. *)
Definition flagOnly (r : Resource) : Prop :=
  Resource_Cluster r = true → Resource_Db r = "" ∧ Resource_Collection r = "".

(** What [expandResource] and [flattenResource] keep of a resource: the
    flag alone when it is set, database and collection otherwise. *)
Definition canonical (r : Resource) : Resource :=
  if Resource_Cluster r then mkResource "" "" true
  else mkResource (Resource_Db r) (Resource_Collection r) false.

(** [carries g m]: the generic entry [g] is a map that has every field of
    [m], with the same value, and whose ["cluster"] is the bool [false]
    when [m] has no such field.  ([expandResource] asserts that
    ["cluster"] is a bool before it reads anything else; [flattenResource]
    writes the flag only when it is set.) *)
Definition carries (g : value) (m : gmap string value) : Prop :=
  ∃ m' : gmap string value,
    g = VMap m' ∧ m ⊆ m'
    ∧ (m !! "cluster" = None → m' !! "cluster" = Some (VBool false)).

Definition inheritedRoleEntry (v : value) : Prop :=
  ∃ db role : string,
    v = VMap {[ "database_name" := VString db; "role_name" := VString role ]}.

Lemma canonical_flagOnly (r : Resource) : canonical r = r ↔ flagOnly r.
Proof.
  destruct r as [db coll [|]]; unfold canonical, flagOnly; cbn.
  - split; [intros [= <- <-]; done | intros [-> ->]; done].
  - split; [by intros _ [=] | done].
Qed.

Lemma canonical_fmap_flagOnly (rs : list Resource) :
  Forall flagOnly rs → canonical <$> rs = rs.
Proof.
  induction 1 as [|r rs Hr _ IH]; [done|].
  rewrite fmap_cons, IH. f_equal. by apply canonical_flagOnly.
Qed.

(** Expanding an entry that carries what [flattenResource r] wrote. *)
Lemma expandResource_carries (g : value) (r : Resource) :
  carries g (flattenResource r) → expandResource g = Some (canonical r).
Proof.
  intros (m' & -> & Hsub & Hflag). unfold expandResource, index. cbn.
  destruct r as [db coll [|]]; unfold flattenResource, canonical in *; cbn in *.
  - rewrite (lookup_weaken _ _ "cluster" (VBool true) (lookup_singleton_eq _ _) Hsub).
    done.
  - rewrite Hflag by done. cbn.
    assert (({[ "database_name" := VString db; "collection_name" := VString coll ]}
               : gmap string value) !! "database_name" = Some (VString db)) as Hd
      by reflexivity.
    assert (({[ "database_name" := VString db; "collection_name" := VString coll ]}
               : gmap string value) !! "collection_name" = Some (VString coll)) as Hc
      by reflexivity.
    rewrite (lookup_weaken _ _ _ _ Hd Hsub). cbn.
    rewrite (lookup_weaken _ _ _ _ Hc Hsub). done.
Qed.

Lemma expandActionResources_carries (gs : list value) (rs : list Resource) :
  Forall2 carries gs (flattenActionResources rs) →
  expandActionResources gs = Some (canonical <$> rs).
Proof.
  unfold expandActionResources, flattenActionResources.
  revert gs. induction rs as [|r rs IH]; intros gs Hall.
  - apply Forall2_nil_inv_r in Hall as ->. done.
  - rewrite fmap_cons in Hall.
    apply Forall2_cons_inv_r in Hall as (g & gs' & Hg & Hgs & ->).
    cbn [mapM]. rewrite (expandResource_carries g r Hg). cbn.
    rewrite (IH gs' Hgs). done.
Qed.

(** The entry a resource was expanded from carries what flatten writes for it. *)
Lemma expandResource_flatten_carries (g : value) (r : Resource) :
  expandResource g = Some r → carries g (flattenResource r).
Proof.
  unfold expandResource, index. destruct g as [| | | |m|]; cbn; try done.
  destruct (m !! "cluster") as [[|[|]| | | |]|] eqn:Hc; cbn; try done.
  - intros [= <-]. exists m. split; [done|]. split; [|done].
    unfold flattenResource. cbn. by apply map_singleton_subseteq_l.
  - destruct (m !! "database_name") as [[| |db| | |]|] eqn:Hd; cbn; try done.
    destruct (m !! "collection_name") as [[| |coll| | |]|] eqn:Hl; cbn; try done.
    intros [= <-]. exists m. split; [done|]. split; [|done].
    unfold flattenResource. cbn.
    apply insert_subseteq_l; [done|]. by apply map_singleton_subseteq_l.
Qed.

Lemma expandActionResources_flatten_carries (gs : list value) (rs : list Resource) :
  expandActionResources gs = Some rs →
  Forall2 carries gs (flattenActionResources rs).
Proof.
  unfold expandActionResources, flattenActionResources. intros Hm.
  apply mapM_Some in Hm. induction Hm as [|g r gs rs Hg _ IH]; [constructor|].
  rewrite fmap_cons. constructor; [|done]. by apply expandResource_flatten_carries.
Qed.

Lemma expand_flatten_inherited_roles (roles : list InheritedRole) :
  mapM expandInheritedRole (storedInheritedRoles (flattenInheritedRoles roles)) = Some roles.
Proof.
  unfold storedInheritedRoles, flattenInheritedRoles.
  induction roles as [|[db role] roles IH]; [done|].
  rewrite !fmap_cons. cbn [mapM].
  change (expandInheritedRole _) with (Some (mkInheritedRole db role)).
  cbn. rewrite IH. done.
Qed.

Lemma flatten_expand_inherited_roles (gs : list value) :
  Forall inheritedRoleEntry gs →
  ∃ roles, mapM expandInheritedRole gs = Some roles
           ∧ storedInheritedRoles (flattenInheritedRoles roles) = gs.
Proof.
  unfold storedInheritedRoles, flattenInheritedRoles.
  induction 1 as [|g gs (db & role & ->) _ (roles & IH1 & IH2)]; [by exists []|].
  exists (mkInheritedRole db role :: roles). cbn [mapM].
  change (expandInheritedRole _) with (Some (mkInheritedRole db role)).
  cbn. rewrite IH1. split; [done|]. rewrite ?fmap_cons. cbn. rewrite IH2. done.
Qed.

(** What expand makes of a generic resource entry never carries a database
    or collection next to the cluster flag: [expandActionResources] keeps
    the flag alone.  So [validateActions] cannot meet the "exclusive" case in
    a list that was expanded from the configuration. *)
Lemma expandResource_flagOnly (v : value) (r : Resource) :
  expandResource v = Some r → flagOnly r.
Proof.
  unfold expandResource, flagOnly. destruct (assertMap v) as [m|]; [|done]. cbn.
  destruct (assertBool (index m "cluster")) as [[|]|]; cbn; [| |done].
  - intros [= <-]. done.
  - destruct (assertString (index m "database_name")) as [db|]; cbn; [|done].
    destruct (assertString (index m "collection_name")) as [coll|]; cbn; [|done].
    intros [= <-]. done.
Qed.

Lemma flagOnly_not_exclusive (r : Resource) :
  flagOnly r → validateResource r ≠ Some errClusterExclusive.
Proof.
  unfold flagOnly, validateResource. destruct r as [db coll [|]]; cbn.
  - intros [-> ->]; done.
  - intros _. by destruct (_ || _).
Qed.

Theorem expanded_resources_never_exclusive (gs : list value) (rs : list Resource) :
  expandActionResources gs = Some rs →
  Forall flagOnly rs ∧ validateResources rs ≠ Some errClusterExclusive.
Proof.
  unfold expandActionResources. revert rs.
  induction gs as [|g gs IH]; intros rs; cbn.
  - intros [= <-]. split; [constructor | done].
  - destruct (expandResource g) as [r|] eqn:Hr; [|done]. cbn.
    destruct (mapM expandResource gs) as [rs'|]; [|done]. cbn. intros [= <-].
    destruct (IH rs' eq_refl) as [Hall Hne].
    pose proof (expandResource_flagOnly _ _ Hr) as Hflag.
    split; [by constructor|]. cbn.
    pose proof (flagOnly_not_exclusive r Hflag).
    destruct (validateResource r) as [e|]; [congruence | done].
Qed.

(** Flatten gives one entry per element, at the same position. *)
Theorem flatten_entry_per_element (actions : list Action) (roles : list InheritedRole)
    (resources : list Resource) (i : nat) :
  flattenActions actions !! i = flattenAction <$> actions !! i
  ∧ flattenInheritedRoles roles !! i = flattenInheritedRole <$> roles !! i
  ∧ flattenActionResources resources !! i = flattenResource <$> resources !! i
  ∧ length (flattenActions actions) = length actions
  ∧ length (flattenInheritedRoles roles) = length roles
  ∧ length (flattenActionResources resources) = length resources.
Proof.
  unfold flattenActions, flattenInheritedRoles, flattenActionResources.
  rewrite !list_lookup_fmap, !length_fmap. done.
Qed.

(** *** More on validation and on the helpers *)

Lemma validateResource_offender (r : Resource) :
  ¬ wellShaped r →
  validateResource r
  = Some (if Resource_Cluster r then errClusterExclusive else errResourceMissing).
Proof.
  intros Hbad. destruct (validateResource_cases r) as [H | [[Hc H] | [Hc H]]].
  - by apply validateResource_None in H.
  - by rewrite H, Hc.
  - by rewrite H, Hc.
Qed.

Lemma validateResources_app (rs1 rs2 : list Resource) :
  validateResources (rs1 ++ rs2)
  = match validateResources rs1 with
    | Some err => Some err
    | None => validateResources rs2
    end.
Proof.
  induction rs1 as [|r rs1 IH]; simpl; [done|].
  by destruct (validateResource r).
Qed.

Lemma validateActionList_app (acts1 acts2 : list Action) :
  validateActionList (acts1 ++ acts2)
  = match validateActionList acts1 with
    | Some err => Some err
    | None => validateActionList acts2
    end.
Proof.
  induction acts1 as [|a acts1 IH]; simpl; [done|].
  by destruct (validateResources (Action_Resources a)).
Qed.

(** The error [validateActions] returns is that of the first entry, in list
    order, that is in neither shape: "exclusive" when that entry has the
    flag set, "must be set" otherwise.  Nothing after that entry matters. *)
Theorem validateActions_reports_first_offender
    (roleName : string) (inheritedRoles : list InheritedRole)
    (before : list Action) (action : Action) (after : list Action)
    (rs1 : list Resource) (r : Resource) (rs2 : list Resource) :
  Forall (λ a, Forall wellShaped (Action_Resources a)) before →
  Action_Resources action = (rs1 ++ r :: rs2)%list →
  Forall wellShaped rs1 →
  ¬ wellShaped r →
  validateActions (mkCustomDBRole roleName (before ++ action :: after) inheritedRoles)
  = Some (if Resource_Cluster r then errClusterExclusive else errResourceMissing).
Proof.
  intros Hbefore Hres Hrs1 Hbad. unfold validateActions. cbn [Actions].
  rewrite validateActionList_app.
  apply validateActionList_None in Hbefore as ->.
  cbn [validateActionList]. rewrite Hres, validateResources_app.
  apply validateResources_None in Hrs1 as ->.
  cbn [validateResources]. by rewrite (validateResource_offender r Hbad).
Qed.

(** A generic entry [expandActionResources] can read: a map whose
    ["cluster"] is a bool and which, when that bool is false, has string
    values under ["database_name"] and ["collection_name"].  With the flag
    set nothing else is looked at. *)
Definition readableResource (v : value) : Prop :=
  ∃ m : gmap string value,
    v = VMap m
    ∧ (m !! "cluster" = Some (VBool true)
       ∨ (m !! "cluster" = Some (VBool false)
          ∧ (∃ db, m !! "database_name" = Some (VString db))
          ∧ (∃ coll, m !! "collection_name" = Some (VString coll)))).

Lemma expandResource_is_Some (v : value) :
  is_Some (expandResource v) ↔ readableResource v.
Proof.
  unfold expandResource, readableResource, index. split.
  - destruct v as [| | | |m|]; cbn; try by intros [? [=]].
    destruct (m !! "cluster") as [[|[|]| | | |]|] eqn:Hc; cbn; try by intros [? [=]].
    + intros _. exists m. auto.
    + destruct (m !! "database_name") as [[| |db| | |]|] eqn:Hd; cbn;
        try by intros [? [=]].
      destruct (m !! "collection_name") as [[| |coll| | |]|] eqn:Hl; cbn;
        try by intros [? [=]].
      intros _. exists m. split; [done|]. right. eauto.
  - intros (m & -> & [Hc | (Hc & [db Hd] & [coll Hl])]); cbn; rewrite Hc; cbn.
    + by eexists.
    + rewrite Hd. cbn. rewrite Hl. cbn. by eexists.
Qed.

Lemma expandActionResources_is_Some (gs : list value) :
  is_Some (expandActionResources gs) ↔ Forall readableResource gs.
Proof.
  unfold expandActionResources. rewrite mapM_is_Some. apply Forall_proper; [|done].
  intros v. apply expandResource_is_Some.
Qed.

(** [expandActionResources] returns (does not panic) exactly on lists of
    readable entries, and then gives one resource per entry, at the same
    position, each made from its own entry alone. *)
Theorem expandActionResources_returns_iff_readable :
  (∀ gs, is_Some (expandActionResources gs) ↔ Forall readableResource gs)
  ∧ (∀ gs rs, expandActionResources gs = Some rs →
       length rs = length gs
       ∧ ∀ i g, gs !! i = Some g →
           ∃ r, rs !! i = Some r ∧ expandResource g = Some r).
Proof.
  split; [exact expandActionResources_is_Some|].
  unfold expandActionResources. intros gs rs Hm. apply mapM_Some in Hm. split.
  - symmetry. by eapply Forall2_length.
  - intros i g Hg. destruct (Forall2_lookup_l _ _ _ _ _ Hm Hg) as (r & Hr & He). eauto.
Qed.

(** Whatever ordered list of entries carries, position by position, what
    [flattenActionResources] wrote for a resources list, expanding it never
    fails and gives [canonical] of each resource, in the same order: the
    bare flag for a flagged resource and every other resource unchanged.
    [canonical] applied twice is [canonical], and a resource is left as it
    is exactly when it is [flagOnly]. *)
Theorem round_trip_is_canonical :
  (∀ rs gs, Forall2 carries gs (flattenActionResources rs) →
            expandActionResources gs = Some (canonical <$> rs))
  ∧ (∀ r, canonical (canonical r) = canonical r)
  ∧ (∀ r, canonical r = r ↔ flagOnly r).
Proof.
  split; [|split].
  - intros rs gs. apply expandActionResources_carries.
  - by intros [db coll [|]].
  - apply canonical_flagOnly.
Qed.

Section Controller.
Context {ResourceData World : Type}.
Context `{!Store ResourceData, !CustomDBRolesService World}.

(** [expandActions] and [expandInheritedRoles] read the store; a nil slice
    and an empty slice are both the empty list. *)
Definition expandActions (d : ResourceData) : option (list Action) :=
  let '(v, ok) := rd_GetOk d "actions" in
  if ok then
    rs ← assertSlice v;
    if bool_decide (0 < length rs) then mapM expandAction rs else Some []
  else Some [].

Definition expandInheritedRoles (d : ResourceData) : option (list InheritedRole) :=
  let '(v, ok) := rd_GetOk d "inherited_roles" in
  if ok then
    rs ← assertSlice v;
    if bool_decide (0 < length rs) then mapM expandInheritedRole rs else Some []
  else Some [].

(** *** The state a controller operation runs in

    [d] is the attribute store the framework hands in by pointer, [world]
    the remote side, [calls] the log of network calls.  An operation is a
    state transformer that may panic ([None]). *)
Record St := mkSt {
  st_d : ResourceData;
  st_world : World;
  st_calls : list Call }.

Definition M (A : Type) : Type := St → option (A * St).

Definition ret {A} (a : A) : M A := λ st, Some (a, st).
Definition bind {A B} (m : M A) (k : A → M B) : M B :=
  λ st, match m st with
        | Some (a, st') => k a st'
        | None => None
        end.
Definition orPanic {A} (o : option A) : M A :=
  λ st, match o with Some a => Some (a, st) | None => None end.
Definition getData : M ResourceData := λ st, Some (st_d st, st).
Definition modifyData (f : ResourceData → ResourceData) : M unit :=
  λ st, Some (tt, mkSt (f (st_d st)) (st_world st) (st_calls st)).
Definition setAttr (key : string) (v : value) : M (option error) :=
  λ st, let '(d', err) := rd_Set key v (st_d st) in
        Some (err, mkSt d' (st_world st) (st_calls st)).

(** A call of the role service: the world steps and the call is logged. *)
Definition call {A} (c : Call) (f : World → A * World) : M A :=
  λ st, let '(a, w') := f (st_world st) in
        Some (a, mkSt (st_d st) w' (st_calls st ++ [c])).

#[local] Instance M_ret : MRet M := @ret.
#[local] Instance M_bind : MBind M := λ A B k m, bind m k.

Definition stateIDs (d : ResourceData) : string * string :=
  let ids := decodeStateID (rd_Id d) in
  (part ids "project_id", part ids "role_name").

#[local] Arguments stateIDs : simpl never.
#[local] Arguments validateActions : simpl never.
#[local] Arguments importParts : simpl never.

Definition roleStateID (projectID roleName : string) : string :=
  encodeStateID {[ "project_id" := projectID; "role_name" := roleName ]}.

Definition resourceMongoDBAtlasCustomDBRoleRead : M (option error) :=
  d ← getData;
  let '(projectID, roleName) := stateIDs d in
  res ← call (CallGet projectID roleName) (roles_Get projectID roleName);
  match res with
  | inl err =>
      ret (Some (ErrorString ("error getting custom db role information: " +:+ Error err)))
  | inr customDBRole =>
      e1 ← setAttr "role_name" (VString (RoleName customDBRole));
      match e1 with
      | Some err =>
          d ← getData;
          ret (Some (ErrorString ("error setting `role_name` for custom db role ("
                                   +:+ rd_Id d +:+ "): " +:+ Error err)))
      | None =>
      e2 ← setAttr "actions" (VMapSlice (flattenActions (Actions customDBRole)));
      match e2 with
      | Some err =>
          d ← getData;
          ret (Some (ErrorString ("error setting `actions` for custom db role ("
                                   +:+ rd_Id d +:+ "): " +:+ Error err)))
      | None =>
      e3 ← setAttr "inherited_roles"
              (VMapSlice (flattenInheritedRoles (InheritedRoles customDBRole)));
      match e3 with
      | Some err =>
          d ← getData;
          ret (Some (ErrorString ("error setting `inherited_roles` for custom db role ("
                                   +:+ rd_Id d +:+ "): " +:+ Error err)))
      | None => ret None
      end end end
  end.

Definition resourceMongoDBAtlasCustomDBRoleCreate : M (option error) :=
  d ← getData;
  projectID ← orPanic (assertString (rd_Get d "project_id"));
  roleName ← orPanic (assertString (rd_Get d "role_name"));
  actions ← orPanic (expandActions d);
  inheritedRoles ← orPanic (expandInheritedRoles d);
  let customDBRoleReq :=
    {| RoleName := roleName; Actions := actions; InheritedRoles := inheritedRoles |} in
  match validateActions customDBRoleReq with
  | Some err => ret (Some err)
  | None =>
      res ← call (CallCreate projectID customDBRoleReq)
                  (roles_Create projectID customDBRoleReq);
      match res with
      | inl err => ret (Some (ErrorString ("error creating custom db role: " +:+ Error err)))
      | inr customDBRoleRes =>
          _ ← modifyData (rd_SetId (roleStateID projectID (RoleName customDBRoleRes)));
          resourceMongoDBAtlasCustomDBRoleRead
      end
  end.

(** [if d.HasChange("actions") { customDBRole.Actions = expandActions(d) }] *)
Definition replaceActions (d : ResourceData) (customDBRole : CustomDBRole) : option CustomDBRole :=
  if rd_HasChange d "actions" then
    actions ← expandActions d;
    Some {| RoleName := RoleName customDBRole; Actions := actions;
            InheritedRoles := InheritedRoles customDBRole |}
  else Some customDBRole.

(** [if d.HasChange("inherited_roles") { customDBRole.InheritedRoles = expandInheritedRoles(d) }] *)
Definition replaceInheritedRoles (d : ResourceData) (customDBRole : CustomDBRole) : option CustomDBRole :=
  if rd_HasChange d "inherited_roles" then
    inheritedRoles ← expandInheritedRoles d;
    Some {| RoleName := RoleName customDBRole; Actions := Actions customDBRole;
            InheritedRoles := inheritedRoles |}
  else Some customDBRole.

Definition resourceMongoDBAtlasCustomDBRoleUpdate : M (option error) :=
  d ← getData;
  let '(projectID, roleName) := stateIDs d in
  res ← call (CallGet projectID roleName) (roles_Get projectID roleName);
  match res with
  | inl err =>
      ret (Some (ErrorString ("error getting custom db role information: " +:+ Error err)))
  | inr customDBRole =>
      customDBRole ← orPanic (replaceActions d customDBRole);
      match validateActions customDBRole with
      | Some err => ret (Some err)
      | None =>
          customDBRole ← orPanic (replaceInheritedRoles d customDBRole);
          res ← call (CallUpdate projectID roleName customDBRole)
                      (roles_Update projectID roleName customDBRole);
          match res with
          | inl err =>
              ret (Some (ErrorString ("error updating custom db role (" +:+ roleName
                                       +:+ "): " +:+ Error err)))
          | inr _ => resourceMongoDBAtlasCustomDBRoleRead
          end
      end
  end.

Definition resourceMongoDBAtlasCustomDBRoleDelete : M (option error) :=
  d ← getData;
  let '(projectID, roleName) := stateIDs d in
  err ← call (CallDelete projectID roleName) (roles_Delete projectID roleName);
  match err with
  | Some err =>
      ret (Some (ErrorString ("error deleting custom db role (" +:+ roleName
                               +:+ "): " +:+ Error err)))
  | None => ret None
  end.

(** Import returns [([]*schema.ResourceData{d}, nil)] or [(nil, err)]; the
    error of [d.Set("project_id", ...)] is only logged. *)
Definition resourceMongoDBAtlasCustomDBRoleImportState : M (error + list ResourceData) :=
  d ← getData;
  match importParts (rd_Id d) with
  | inl err => ret (inl err)
  | inr (projectID, roleName) =>
      res ← call (CallGet projectID roleName) (roles_Get projectID roleName);
      match res with
      | inl err =>
          ret (inl (ErrorString ("couldn't import custom db role " +:+ roleName
                                  +:+ " in project " +:+ projectID
                                  +:+ ", error: " +:+ Error err)))
      | inr r =>
          _ ← modifyData (rd_SetId (roleStateID projectID (RoleName r)));
          _ ← setAttr "project_id" (VString projectID);
          d ← getData;
          ret (inr [d])
      end
  end.

(** *** Update, as the specification words it

    Fetch the remote role; take the local actions list whole if the actions
    field changed, else keep the fetched one, and likewise the inherited
    roles; validate; issue the update call; re-read.  The operation fails if
    the fetch, the validation or the update call fails. *)

Definition desiredActions (d : ResourceData) (fetched : CustomDBRole) : option (list Action) :=
  if rd_HasChange d "actions" then expandActions d else Some (Actions fetched).

Definition desiredInheritedRoles (d : ResourceData) (fetched : CustomDBRole)
  : option (list InheritedRole) :=
  if rd_HasChange d "inherited_roles" then expandInheritedRoles d
  else Some (InheritedRoles fetched).

Inductive UpdateSpec (st : St) : option error → St → Prop :=
  | Update_fetch_fails err w1 :
      roles_Get (stateIDs (st_d st)).1 (stateIDs (st_d st)).2 (st_world st) = (inl err, w1) →
      UpdateSpec st
        (Some (ErrorString ("error getting custom db role information: " +:+ Error err)))
        (mkSt (st_d st) w1
              (st_calls st ++ [CallGet (stateIDs (st_d st)).1 (stateIDs (st_d st)).2]))
  | Update_validation_fails fetched w1 actions err :
      roles_Get (stateIDs (st_d st)).1 (stateIDs (st_d st)).2 (st_world st) = (inr fetched, w1) →
      desiredActions (st_d st) fetched = Some actions →
      validateActions (mkCustomDBRole (RoleName fetched) actions (InheritedRoles fetched))
        = Some err →
      UpdateSpec st (Some err)
        (mkSt (st_d st) w1
              (st_calls st ++ [CallGet (stateIDs (st_d st)).1 (stateIDs (st_d st)).2]))
  | Update_call_fails fetched w1 actions inheritedRoles err w2 :
      let projectID := (stateIDs (st_d st)).1 in
      let roleName := (stateIDs (st_d st)).2 in
      let desired := mkCustomDBRole (RoleName fetched) actions inheritedRoles in
      roles_Get projectID roleName (st_world st) = (inr fetched, w1) →
      desiredActions (st_d st) fetched = Some actions →
      desiredInheritedRoles (st_d st) fetched = Some inheritedRoles →
      validateActions desired = None →
      roles_Update projectID roleName desired w1 = (inl err, w2) →
      UpdateSpec st
        (Some (ErrorString ("error updating custom db role (" +:+ roleName
                             +:+ "): " +:+ Error err)))
        (mkSt (st_d st) w2
              (st_calls st ++ [CallGet projectID roleName]
                           ++ [CallUpdate projectID roleName desired]))
  | Update_rereads fetched w1 actions inheritedRoles updated w2 res st' :
      let projectID := (stateIDs (st_d st)).1 in
      let roleName := (stateIDs (st_d st)).2 in
      let desired := mkCustomDBRole (RoleName fetched) actions inheritedRoles in
      roles_Get projectID roleName (st_world st) = (inr fetched, w1) →
      desiredActions (st_d st) fetched = Some actions →
      desiredInheritedRoles (st_d st) fetched = Some inheritedRoles →
      validateActions desired = None →
      roles_Update projectID roleName desired w1 = (inr updated, w2) →
      resourceMongoDBAtlasCustomDBRoleRead
        (mkSt (st_d st) w2
              (st_calls st ++ [CallGet projectID roleName]
                           ++ [CallUpdate projectID roleName desired]))
        = Some (res, st') →
      UpdateSpec st res st'.

(** *** Properties of Create and Update *)

Ltac run := unfold mbind, M_bind, bind, getData, orPanic, call, ret, modifyData, setAttr; cbn.

(** C3.  When [validateActions] rejects the role, Create returns that very
    error and leaves the whole state as it was: no call is logged (so no
    role-creation call) and the store, with its identifier, is untouched.
    Update, which has fetched the remote role by then, returns that very
    error with the fetch as its only call (so no update call) and the store
    untouched. *)
Theorem validation_error_precedes_mutation :
  (∀ (st : St) projectID roleName actions inheritedRoles err,
      assertString (rd_Get (st_d st) "project_id") = Some projectID →
      assertString (rd_Get (st_d st) "role_name") = Some roleName →
      expandActions (st_d st) = Some actions →
      expandInheritedRoles (st_d st) = Some inheritedRoles →
      validateActions (mkCustomDBRole roleName actions inheritedRoles) = Some err →
      resourceMongoDBAtlasCustomDBRoleCreate st = Some (Some err, st))
  ∧ (∀ (st : St) fetched w' customDBRole err,
      roles_Get (stateIDs (st_d st)).1 (stateIDs (st_d st)).2 (st_world st)
        = (inr fetched, w') →
      replaceActions (st_d st) fetched = Some customDBRole →
      validateActions customDBRole = Some err →
      resourceMongoDBAtlasCustomDBRoleUpdate st
        = Some (Some err,
                mkSt (st_d st) w'
                     (st_calls st ++ [CallGet (stateIDs (st_d st)).1 (stateIDs (st_d st)).2]))).
Proof.
  split.
  - intros [d w cs] projectID roleName actions inheritedRoles err Hp Hr Ha Hi Hv.
    cbn in *. unfold resourceMongoDBAtlasCustomDBRoleCreate. run.
    rewrite Hp, Hr, Ha, Hi, Hv. reflexivity.
  - intros [d w cs] fetched w' customDBRole err Hget Hrep Hv. cbn in *.
    unfold resourceMongoDBAtlasCustomDBRoleUpdate. run.
    destruct (stateIDs d) as [projectID roleName]. cbn in *.
    rewrite Hget, Hrep, Hv. reflexivity.
Qed.

Lemma replaceActions_desired (d : ResourceData) (fetched customDBRole : CustomDBRole) :
  replaceActions d fetched = Some customDBRole
  ↔ ∃ actions, desiredActions d fetched = Some actions
               ∧ customDBRole = mkCustomDBRole (RoleName fetched) actions (InheritedRoles fetched).
Proof.
  unfold replaceActions, desiredActions. destruct (rd_HasChange d "actions").
  - destruct (expandActions d) as [acts|]; cbn; split.
    + intros [= <-]. eauto.
    + intros (a & [= <-] & ->). done.
    + done.
    + intros (a & [=] & _).
  - destruct fetched as [n a i]; cbn. split.
    + intros [= <-]. eauto.
    + intros (? & [= <-] & ->). done.
Qed.

Lemma replaceInheritedRoles_desired (d : ResourceData) (role customDBRole : CustomDBRole) :
  replaceInheritedRoles d role = Some customDBRole
  ↔ ∃ inheritedRoles, desiredInheritedRoles d role = Some inheritedRoles
               ∧ customDBRole = mkCustomDBRole (RoleName role) (Actions role) inheritedRoles.
Proof.
  unfold replaceInheritedRoles, desiredInheritedRoles.
  destruct (rd_HasChange d "inherited_roles").
  - destruct (expandInheritedRoles d) as [rs|]; cbn; split.
    + intros [= <-]. eauto.
    + intros (a & [= <-] & ->). done.
    + done.
    + intros (a & [=] & _).
  - destruct role as [n a i]; cbn. split.
    + intros [= <-]. eauto.
    + intros (? & [= <-] & ->). done.
Qed.

Lemma validateActions_only_actions (n n' : string) (acts : list Action)
    (i i' : list InheritedRole) :
  validateActions (mkCustomDBRole n acts i) = validateActions (mkCustomDBRole n' acts i').
Proof. reflexivity. Qed.

Lemma Read_total (st : St) : is_Some (resourceMongoDBAtlasCustomDBRoleRead st).
Proof.
  destruct st as [d w cs]. unfold resourceMongoDBAtlasCustomDBRoleRead. run.
  destruct (stateIDs d) as [p r]. cbn.
  destruct (roles_Get p r w) as [[e|role] w1]; cbn; [by eexists|].
  destruct (rd_Set "role_name" _ d) as [d1 [e1|]]; cbn; [by eexists|].
  destruct (rd_Set "actions" _ d1) as [d2 [e2|]]; cbn; [by eexists|].
  destruct (rd_Set "inherited_roles" _ d2) as [d3 [e3|]]; cbn; by eexists.
Qed.

(** C8.  Update does what [UpdateSpec] says, and nothing else: it returns
    [res] in state [st'] exactly when the fetch failed, or the validation of
    the role with the desired actions failed, or the update call failed, or
    all three succeeded and the re-read returned [res] in [st'].  The role
    sent to the update call carries the local actions list whole when the
    actions field changed and the fetched list otherwise, and likewise for
    the inherited roles.  Update returns (does not panic) whenever the two
    lists it may have to expand can be expanded. *)
Theorem Update_refines_UpdateSpec :
  (∀ (st : St) res st',
      resourceMongoDBAtlasCustomDBRoleUpdate st = Some (res, st') ↔ UpdateSpec st res st')
  ∧ (∀ st : St,
      (rd_HasChange (st_d st) "actions" = true → is_Some (expandActions (st_d st))) →
      (rd_HasChange (st_d st) "inherited_roles" = true →
         is_Some (expandInheritedRoles (st_d st))) →
      is_Some (resourceMongoDBAtlasCustomDBRoleUpdate st)).
Proof.
  split.
  - intros [d w cs] res st'. split.
    + unfold resourceMongoDBAtlasCustomDBRoleUpdate. run.
      destruct (stateIDs d) as [p r] eqn:Hids. cbn.
      destruct (roles_Get p r w) as [[e|fetched] w1] eqn:Hget; cbn.
      { intros [= <- <-]. pose proof (Update_fetch_fails (mkSt d w cs) e w1) as H.
        cbn in H. rewrite Hids in H. cbn in H. auto. }
      destruct (replaceActions d fetched) as [role1|] eqn:Hrep; cbn; [|done].
      apply replaceActions_desired in Hrep as (acts & Hacts & ->).
      destruct (validateActions _) as [err|] eqn:Hval; cbn.
      { intros [= <- <-].
        pose proof (Update_validation_fails (mkSt d w cs) fetched w1 acts err) as H.
        cbn in H. rewrite Hids in H. cbn in H. auto. }
      destruct (replaceInheritedRoles d _) as [role2|] eqn:Hrep2; cbn; [|done].
      apply replaceInheritedRoles_desired in Hrep2 as (inh & Hinh & ->). cbn in *.
      destruct (roles_Update p r _ w1) as [[e|updated] w2] eqn:Hupd; cbn.
      { intros [= <- <-].
        pose proof (Update_call_fails (mkSt d w cs) fetched w1 acts inh e w2) as H.
        cbn in H. rewrite Hids in H. cbn in H. rewrite <- (assoc_L app). cbn.
        apply H; auto. }
      intros Hread.
      pose proof (Update_rereads (mkSt d w cs) fetched w1 acts inh updated w2 res st') as H.
      cbn in H. rewrite Hids in H. cbn in H. rewrite <- (assoc_L app) in Hread. cbn in Hread.
      apply H; auto.
    + intros Hspec. unfold resourceMongoDBAtlasCustomDBRoleUpdate. run.
      inversion Hspec as [err w1 Hget | fetched w1 acts err Hget Hacts Hval
                         | fetched w1 acts inh err w2 p r desired Hget Hacts Hinh Hval Hupd
                         | fetched w1 acts inh updated w2 res0 st0 p r desired
                             Hget Hacts Hinh Hval Hupd Hread];
        subst; cbn in *.
      * destruct (stateIDs d) as [p r]; cbn in *. rewrite Hget. reflexivity.
      * destruct (stateIDs d) as [p r]; cbn in *. rewrite Hget. cbn.
        assert (replaceActions d fetched
                = Some (mkCustomDBRole (RoleName fetched) acts (InheritedRoles fetched)))
          as -> by (apply replaceActions_desired; eauto).
        cbn. rewrite Hval. reflexivity.
      * subst p r desired. destruct (stateIDs d) as [p r]; cbn in *. rewrite Hget. cbn.
        assert (replaceActions d fetched
                = Some (mkCustomDBRole (RoleName fetched) acts (InheritedRoles fetched)))
          as -> by (apply replaceActions_desired; eauto).
        cbn. rewrite (validateActions_only_actions _ (RoleName fetched) _ _ inh), Hval.
        assert (replaceInheritedRoles d
                  (mkCustomDBRole (RoleName fetched) acts (InheritedRoles fetched))
                = Some (mkCustomDBRole (RoleName fetched) acts inh))
          as -> by (apply replaceInheritedRoles_desired; eauto).
        cbn. rewrite Hupd. rewrite <- (assoc_L app). reflexivity.
      * subst p r desired. destruct (stateIDs d) as [p r]; cbn in *. rewrite Hget. cbn.
        assert (replaceActions d fetched
                = Some (mkCustomDBRole (RoleName fetched) acts (InheritedRoles fetched)))
          as -> by (apply replaceActions_desired; eauto).
        cbn. rewrite (validateActions_only_actions _ (RoleName fetched) _ _ inh), Hval.
        assert (replaceInheritedRoles d
                  (mkCustomDBRole (RoleName fetched) acts (InheritedRoles fetched))
                = Some (mkCustomDBRole (RoleName fetched) acts inh))
          as -> by (apply replaceInheritedRoles_desired; eauto).
        cbn. rewrite Hupd. rewrite <- (assoc_L app). exact Hread.
  - intros [d w cs] Ha Hi. cbn in *.
    unfold resourceMongoDBAtlasCustomDBRoleUpdate. run.
    destruct (stateIDs d) as [p r]. cbn.
    destruct (roles_Get p r w) as [[e|fetched] w1]; cbn; [by eexists|].
    unfold replaceActions. destruct (rd_HasChange d "actions").
    + destruct Ha as [acts ->]; [done|]. cbn.
      destruct (validateActions _); cbn; [by eexists|].
      unfold replaceInheritedRoles; cbn. destruct (rd_HasChange d "inherited_roles").
      * destruct Hi as [inh ->]; [done|]. cbn.
        destruct (roles_Update _ _ _ _) as [[e|u] w2]; cbn; [by eexists|]. apply Read_total.
      * cbn. destruct (roles_Update _ _ _ _) as [[e|u] w2]; cbn; [by eexists|]. apply Read_total.
    + cbn. destruct (validateActions _); cbn; [by eexists|].
      unfold replaceInheritedRoles; cbn. destruct (rd_HasChange d "inherited_roles").
      * destruct Hi as [inh ->]; [done|]. cbn.
        destruct (roles_Update _ _ _ _) as [[e|u] w2]; cbn; [by eexists|]. apply Read_total.
      * cbn. destruct (roles_Update _ _ _ _) as [[e|u] w2]; cbn; [by eexists|]. apply Read_total.
Qed.

Lemma expandInheritedRoles_reads (d : ResourceData) (gs : list value) (ok : bool) :
  rd_GetOk d "inherited_roles" = (VSlice gs, ok) → (ok = false → gs = []) →
  expandInheritedRoles d = mapM expandInheritedRole gs.
Proof.
  intros Hget Hok. unfold expandInheritedRoles. rewrite Hget. destruct ok.
  - cbn. case_bool_decide as Hlen; [done|]. destruct gs; [done|]. simpl in Hlen. lia.
  - by rewrite Hok.
Qed.

Lemma expandActionResources_flagOnly (gs : list value) (rs : list Resource) :
  expandActionResources gs = Some rs → Forall flagOnly rs.
Proof.
  unfold expandActionResources. intros Hm. apply mapM_Some in Hm.
  induction Hm as [|g r gs rs Hg _ IH]; constructor; [|done].
  by eapply expandResource_flagOnly.
Qed.

(** C2 (amended).  For every ordered inherited-roles list, expand after
    flatten returns the original typed list and flatten after expand the
    original generic list, element by element and in order (the store
    reporting the list as set unless it is empty).

    For every ordered resources list in which a resource with the cluster
    flag set has no database and no collection, expanding any ordered list of
    entries that carry, position by position, what flatten wrote (an entry
    without the flag being read with the flag false) returns the original
    list.  In the other direction, what flatten writes for an expanded list
    has one entry per original entry, in the same order, each made of fields
    that the original entry has with the same values, and expanding it again
    gives the same resources.

    Nothing is said of a whole actions list read from the store. *)
Theorem expand_flatten_round_trip :
  (∀ (d : ResourceData) roles ok,
       rd_GetOk d "inherited_roles"
         = (VSlice (storedInheritedRoles (flattenInheritedRoles roles)), ok) →
       (ok = false → roles = []) →
       expandInheritedRoles d = Some roles)
  ∧ (∀ (d : ResourceData) gs ok,
       rd_GetOk d "inherited_roles" = (VSlice gs, ok) → (ok = false → gs = []) →
       Forall inheritedRoleEntry gs →
       ∃ roles, expandInheritedRoles d = Some roles
                ∧ storedInheritedRoles (flattenInheritedRoles roles) = gs)
  ∧ (∀ rs gs, Forall flagOnly rs →
       Forall2 carries gs (flattenActionResources rs) →
       expandActionResources gs = Some rs)
  ∧ (∀ r g, flagOnly r → carries g (flattenResource r) → expandResource g = Some r)
  ∧ (∀ gs rs, expandActionResources gs = Some rs →
       length (flattenActionResources rs) = length gs
       ∧ Forall2 carries gs (flattenActionResources rs)
       ∧ ∀ gs', Forall2 carries gs' (flattenActionResources rs) →
                expandActionResources gs' = Some rs).
Proof.
  split; [|split; [|split; [|split]]].
  - intros d roles ok Hget Hok.
    rewrite (expandInheritedRoles_reads d _ ok Hget).
    + apply expand_flatten_inherited_roles.
    + intros ->%Hok. done.
  - intros d gs ok Hget Hok Hgs.
    rewrite (expandInheritedRoles_reads d _ ok Hget Hok).
    by apply flatten_expand_inherited_roles.
  - intros rs gs Hflag Hall.
    rewrite (expandActionResources_carries gs rs Hall).
    by rewrite canonical_fmap_flagOnly.
  - intros r g Hflag Hg. rewrite (expandResource_carries g r Hg).
    f_equal. by apply canonical_flagOnly.
  - intros gs rs Hex.
    pose proof (expandActionResources_flatten_carries gs rs Hex) as Hall.
    split; [symmetry; by eapply Forall2_length|]. split; [done|].
    intros gs' Hall'. rewrite (expandActionResources_carries gs' rs Hall').
    rewrite canonical_fmap_flagOnly; [done|].
    by eapply expandActionResources_flagOnly.
Qed.

(** C4.  Import splits the identifier at the first ["-"] only: ["abc-def"]
    gives project ["abc"] and role ["def"], ["a-b-c"] gives ["a"] and
    ["b-c"], and ["abcdef"] is a format error.  In general the operation
    fails with the format error, before any call and with the state
    untouched, exactly when the identifier has no ["-"]; otherwise the
    identifier is project, ["-"], role with no ["-"] in the project part, the
    role is looked up under exactly these two names, and on success the
    store gets the project part as [project_id] and an identifier made of
    the project part and the name of the role found. *)
Theorem import_splits_on_first_separator :
  importParts "abc-def" = inr ("abc", "def")
  ∧ importParts "abcdef" = inl errImportFormat
  ∧ importParts "a-b-c" = inr ("a", "b-c")
  ∧ (∀ id, match importParts id with
           | inl err => err = errImportFormat ∧ noDash id
           | inr (projectID, roleName) =>
               id = projectID +:+ "-" +:+ roleName ∧ noDash projectID
           end)
  ∧ (∀ st : St,
       match importParts (rd_Id (st_d st)) with
       | inl err => resourceMongoDBAtlasCustomDBRoleImportState st = Some (inl err, st)
       | inr (projectID, roleName) =>
           let calls := (st_calls st ++ [CallGet projectID roleName])%list in
           match roles_Get projectID roleName (st_world st) with
           | (inl err, w') =>
               resourceMongoDBAtlasCustomDBRoleImportState st
               = Some (inl (ErrorString ("couldn't import custom db role " +:+ roleName
                                          +:+ " in project " +:+ projectID
                                          +:+ ", error: " +:+ Error err)),
                       mkSt (st_d st) w' calls)
           | (inr r, w') =>
               let d' := (rd_Set "project_id" (VString projectID)
                            (rd_SetId (roleStateID projectID (RoleName r)) (st_d st))).1 in
               resourceMongoDBAtlasCustomDBRoleImportState st
               = Some (inr [d'], mkSt d' w' calls)
           end
       end).
Proof.
  split; [reflexivity|]. split; [reflexivity|]. split; [reflexivity|].
  split; [apply importParts_spec|].
  intros [d w cs]. unfold resourceMongoDBAtlasCustomDBRoleImportState. run.
  destruct (importParts (rd_Id d)) as [err|[p r]]; cbn; [done|].
  destruct (roles_Get p r w) as [[e|role] w1]; cbn; [done|].
  destruct (rd_Set "project_id" _ _) as [d1 e1]; cbn. done.
Qed.

(** *** The calls each operation makes *)

Lemma Read_calls (st : St) (res : option error) (st' : St) :
  resourceMongoDBAtlasCustomDBRoleRead st = Some (res, st') →
  st_calls st'
  = (st_calls st ++ [CallGet (stateIDs (st_d st)).1 (stateIDs (st_d st)).2])%list.
Proof.
  destruct st as [d w cs]. unfold resourceMongoDBAtlasCustomDBRoleRead. run.
  destruct (stateIDs d) as [p r]. cbn.
  destruct (roles_Get p r w) as [[e|role] w1]; cbn; [by intros [= <- <-]|].
  destruct (rd_Set "role_name" _ d) as [d1 [e1|]]; cbn; [by intros [= <- <-]|].
  destruct (rd_Set "actions" _ d1) as [d2 [e2|]]; cbn; [by intros [= <- <-]|].
  destruct (rd_Set "inherited_roles" _ d2) as [d3 [e3|]]; cbn; by intros [= <- <-].
Qed.

(** Whatever an operation returns, the calls it has added to the log are
    these, in this order: Read one fetch; Delete one delete, with the store
    untouched; Import nothing or one fetch; Create nothing, or the creation,
    or the creation and one fetch; Update the fetch, or the fetch and the
    update, or the fetch, the update and a second fetch under the same
    names.  No operation makes more than one mutating call, and none makes
    more than three calls. *)
Theorem calls_of_each_operation (st : St) :
  let projectID := (stateIDs (st_d st)).1 in
  let roleName := (stateIDs (st_d st)).2 in
  (∀ res st', resourceMongoDBAtlasCustomDBRoleRead st = Some (res, st') →
     st_calls st' = (st_calls st ++ [CallGet projectID roleName])%list)
  ∧ (∀ res st', resourceMongoDBAtlasCustomDBRoleDelete st = Some (res, st') →
     st_calls st' = (st_calls st ++ [CallDelete projectID roleName])%list
     ∧ st_d st' = st_d st)
  ∧ (∀ res st', resourceMongoDBAtlasCustomDBRoleImportState st = Some (res, st') →
     st_calls st' = st_calls st
     ∨ ∃ p r, st_calls st' = (st_calls st ++ [CallGet p r])%list)
  ∧ (∀ res st', resourceMongoDBAtlasCustomDBRoleCreate st = Some (res, st') →
     st_calls st' = st_calls st
     ∨ ∃ p req, st_calls st' = (st_calls st ++ [CallCreate p req])%list
                ∨ ∃ p' r', st_calls st'
                           = (st_calls st ++ [CallCreate p req; CallGet p' r'])%list)
  ∧ (∀ res st', resourceMongoDBAtlasCustomDBRoleUpdate st = Some (res, st') →
     st_calls st' = (st_calls st ++ [CallGet projectID roleName])%list
     ∨ ∃ role,
         st_calls st' = (st_calls st ++ [CallGet projectID roleName;
                                         CallUpdate projectID roleName role])%list
         ∨ st_calls st' = (st_calls st ++ [CallGet projectID roleName;
                                           CallUpdate projectID roleName role;
                                           CallGet projectID roleName])%list).
Proof.
  intros projectID roleName. subst projectID roleName.
  split; [intros res st'; apply Read_calls|].
  destruct st as [d w cs]. cbn [st_d st_calls].
  split; [|split; [|split]].
  - intros res st'. unfold resourceMongoDBAtlasCustomDBRoleDelete. run.
    destruct (stateIDs d) as [p r]. cbn.
    destruct (roles_Delete p r w) as [[e|] w1]; cbn; by intros [= <- <-].
  - intros res st'. unfold resourceMongoDBAtlasCustomDBRoleImportState. run.
    destruct (importParts (rd_Id d)) as [err|[p r]]; cbn; [intros [= <- <-]; by left|].
    destruct (roles_Get p r w) as [[e|role] w1]; cbn.
    + intros [= <- <-]. right. by exists p, r.
    + destruct (rd_Set "project_id" _ _) as [d1 e1]; cbn.
      intros [= <- <-]. right. by exists p, r.
  - intros res st'. unfold resourceMongoDBAtlasCustomDBRoleCreate. run.
    destruct (assertString (rd_Get d "project_id")) as [p|]; cbn; [|done].
    destruct (assertString (rd_Get d "role_name")) as [r|]; cbn; [|done].
    destruct (expandActions d) as [acts|]; cbn; [|done].
    destruct (expandInheritedRoles d) as [inh|]; cbn; [|done].
    destruct (validateActions _) as [err|]; cbn; [intros [= <- <-]; by left|].
    destruct (roles_Create p _ w) as [[e|created] w1]; cbn.
    + intros [= <- <-]. right. eexists p, _. by left.
    + intros Hread. apply Read_calls in Hread. cbn in Hread.
      right. eexists p, _. right. eexists _, _. rewrite Hread.
      by rewrite <- (assoc_L app).
  - intros res st'. unfold resourceMongoDBAtlasCustomDBRoleUpdate. run.
    destruct (stateIDs d) as [p r] eqn:Hids. cbn.
    destruct (roles_Get p r w) as [[e|fetched] w1]; cbn; [intros [= <- <-]; by left|].
    destruct (replaceActions d fetched) as [role1|]; cbn; [|done].
    destruct (validateActions role1) as [err|]; cbn; [intros [= <- <-]; by left|].
    destruct (replaceInheritedRoles d role1) as [role2|]; cbn; [|done].
    destruct (roles_Update p r role2 w1) as [[e|updated] w2]; cbn.
    + intros [= <- <-]. right. exists role2. left. by rewrite <- (assoc_L app).
    + intros Hread. apply Read_calls in Hread. cbn in Hread.
      rewrite Hids in Hread. cbn in Hread.
      right. exists role2. right. rewrite Hread. by rewrite <- !(assoc_L app).
Qed.

(** *** The "exclusive" error and the configuration *)

Lemma flagOnly_validateResources (rs : list Resource) :
  Forall flagOnly rs → validateResources rs ≠ Some errClusterExclusive.
Proof.
  induction 1 as [|r rs Hr _ IH]; cbn; [done|].
  pose proof (flagOnly_not_exclusive r Hr).
  destruct (validateResource r) as [e|]; [congruence | done].
Qed.

Lemma flagOnly_validateActionList (acts : list Action) :
  Forall (λ a, Forall flagOnly (Action_Resources a)) acts →
  validateActionList acts ≠ Some errClusterExclusive.
Proof.
  induction 1 as [|a acts Ha _ IH]; cbn; [done|].
  pose proof (flagOnly_validateResources _ Ha).
  destruct (validateResources _) as [e|]; [congruence | done].
Qed.

Lemma expandAction_flagOnly (v : value) (a : Action) :
  expandAction v = Some a → Forall flagOnly (Action_Resources a).
Proof.
  unfold expandAction. destruct (assertMap v) as [m|]; cbn; [|done].
  destruct (assertString (index m "action")) as [name|]; cbn; [|done].
  destruct (assertSlice (index m "resources")) as [gs|]; cbn; [|done].
  destruct (expandActionResources gs) as [rs|] eqn:Hrs; cbn; [|done].
  intros [= <-]. cbn. unfold expandActionResources in Hrs.
  apply mapM_Some in Hrs. induction Hrs as [|g r gs rs Hg _ IH]; constructor; [|done].
  by eapply expandResource_flagOnly.
Qed.

Lemma expandActions_flagOnly (d : ResourceData) (acts : list Action) :
  expandActions d = Some acts →
  Forall (λ a, Forall flagOnly (Action_Resources a)) acts.
Proof.
  unfold expandActions. destruct (rd_GetOk d "actions") as [v [|]];
    [|intros [= <-]; constructor].
  destruct (assertSlice v) as [gs|]; cbn; [|done].
  case_bool_decide as Hlen; [|intros [= <-]; constructor].
  clear Hlen. intros Hm. apply mapM_Some in Hm.
  induction Hm as [|g a gs acts' Hg _ IH]; constructor; [|done].
  by eapply expandAction_flagOnly.
Qed.

Lemma Read_error_not_exclusive (st : St) (err : error) (st' : St) :
  resourceMongoDBAtlasCustomDBRoleRead st = Some (Some err, st') →
  err ≠ errClusterExclusive.
Proof.
  destruct st as [d w cs]. unfold resourceMongoDBAtlasCustomDBRoleRead. run.
  destruct (stateIDs d) as [p r]. cbn.
  destruct (roles_Get p r w) as [[e|role] w1]; cbn; [by intros [= <- <-]|].
  destruct (rd_Set "role_name" _ d) as [d1 [e1|]]; cbn; [by intros [= <- <-]|].
  destruct (rd_Set "actions" _ d1) as [d2 [e2|]]; cbn; [by intros [= <- <-]|].
  destruct (rd_Set "inherited_roles" _ d2) as [d3 [e3|]]; cbn; by intros [= <- <-].
Qed.

(** Create never returns the "exclusive" validation error, whatever the
    store holds and whatever the service answers: the lists it validates come
    from [expandActions], which keeps the flag alone, and every other error
    it returns is wrapped in a message of its own.  Update can return it only
    when the actions field did not change, that is for a list fetched from
    the remote side. *)
Theorem exclusive_error_only_for_fetched_actions :
  (∀ (st : St) err st',
      resourceMongoDBAtlasCustomDBRoleCreate st = Some (Some err, st') →
      err ≠ errClusterExclusive)
  ∧ (∀ (st : St) st',
      resourceMongoDBAtlasCustomDBRoleUpdate st = Some (Some errClusterExclusive, st') →
      rd_HasChange (st_d st) "actions" = false).
Proof.
  split.
  - intros [d w cs] err st'. unfold resourceMongoDBAtlasCustomDBRoleCreate. run.
    destruct (assertString (rd_Get d "project_id")) as [p|]; cbn; [|done].
    destruct (assertString (rd_Get d "role_name")) as [r|]; cbn; [|done].
    destruct (expandActions d) as [acts|] eqn:Hacts; cbn; [|done].
    destruct (expandInheritedRoles d) as [inh|]; cbn; [|done].
    destruct (validateActions _) as [e|] eqn:Hval; cbn.
    + intros [= <- <-]. intros ->.
      by apply (flagOnly_validateActionList acts (expandActions_flagOnly d acts Hacts)).
    + destruct (roles_Create p _ w) as [[e|created] w1]; cbn; [by intros [= <- <-]|].
      apply Read_error_not_exclusive.
  - intros [d w cs] st'. unfold resourceMongoDBAtlasCustomDBRoleUpdate. run.
    destruct (stateIDs d) as [p r]. cbn.
    destruct (roles_Get p r w) as [[e|fetched] w1]; cbn; [by intros [=]|].
    unfold replaceActions. destruct (rd_HasChange d "actions"); [|done].
    destruct (expandActions d) as [acts|] eqn:Hacts; cbn; [|done].
    destruct (validateActions _) as [e|] eqn:Hval; cbn.
    + intros [= -> <-].
      by destruct (flagOnly_validateActionList acts (expandActions_flagOnly d acts Hacts)).
    + destruct (replaceInheritedRoles d _) as [role2|]; cbn; [|done].
      destruct (roles_Update p r role2 w1) as [[e|updated] w2]; cbn; [by intros [=]|].
      intros Hread. by destruct (Read_error_not_exclusive _ _ _ Hread).
Qed.

(** *** Identifiers *)

(** The laws of a store and its codec that the next two theorems rest on:
    the identifier reads back as set, setting an attribute leaves it alone,
    and the codec gives back the two parts it was given. *)
Definition keepsId : Prop :=
  (∀ id (d : ResourceData), rd_Id (rd_SetId id d) = id)
  ∧ (∀ key v (d : ResourceData), rd_Id (rd_Set key v d).1 = rd_Id d).

Definition decodes (projectID roleName : string) : Prop :=
  part (decodeStateID (roleStateID projectID roleName)) "project_id" = projectID
  ∧ part (decodeStateID (roleStateID projectID roleName)) "role_name" = roleName.

Lemma Read_keeps_id (st : St) (res : option error) (st' : St) :
  keepsId → resourceMongoDBAtlasCustomDBRoleRead st = Some (res, st') →
  rd_Id (st_d st') = rd_Id (st_d st).
Proof.
  intros [_ Hset]. destruct st as [d w cs].
  unfold resourceMongoDBAtlasCustomDBRoleRead. run.
  destruct (stateIDs d) as [p r]. cbn.
  destruct (roles_Get p r w) as [[e|role] w1]; cbn; [by intros [= <- <-]|].
  pose proof (Hset "role_name" (VString (RoleName role)) d) as H1.
  destruct (rd_Set "role_name" _ d) as [d1 [e1|]]; cbn in *; [by intros [= <- <-]|].
  pose proof (Hset "actions" (VMapSlice (flattenActions (Actions role))) d1) as H2.
  destruct (rd_Set "actions" _ d1) as [d2 [e2|]]; cbn in *;
    [intros [= <- <-]; cbn; congruence|].
  pose proof (Hset "inherited_roles"
                (VMapSlice (flattenInheritedRoles (InheritedRoles role))) d2) as H3.
  destruct (rd_Set "inherited_roles" _ d2) as [d3 [e3|]]; cbn in *;
    intros [= <- <-]; cbn; congruence.
Qed.

(** After a successful creation call the identifier is made of the project
    and of the role name the service returned (not the one requested), the
    fetch that follows asks for exactly that role, and the identifier is
    still the same when Create returns. *)
Theorem Create_identifies_by_returned_name
    (st : St) (projectID roleName : string) (actions : list Action)
    (inheritedRoles : list InheritedRole) (created : CustomDBRole) (w1 : World) :
  keepsId → decodes projectID (RoleName created) →
  assertString (rd_Get (st_d st) "project_id") = Some projectID →
  assertString (rd_Get (st_d st) "role_name") = Some roleName →
  expandActions (st_d st) = Some actions →
  expandInheritedRoles (st_d st) = Some inheritedRoles →
  validateActions (mkCustomDBRole roleName actions inheritedRoles) = None →
  roles_Create projectID (mkCustomDBRole roleName actions inheritedRoles) (st_world st)
    = (inr created, w1) →
  ∃ res st',
    resourceMongoDBAtlasCustomDBRoleCreate st = Some (res, st')
    ∧ st_calls st'
      = (st_calls st ++ [CallCreate projectID (mkCustomDBRole roleName actions inheritedRoles);
                         CallGet projectID (RoleName created)])%list
    ∧ rd_Id (st_d st') = roleStateID projectID (RoleName created).
Proof.
  intros Hlaws [Hp Hr] Hpid Hname Hacts Hinh Hval Hcreate.
  destruct st as [d w cs]. cbn in *.
  unfold resourceMongoDBAtlasCustomDBRoleCreate. run.
  rewrite Hpid. cbn. rewrite Hname. cbn. rewrite Hacts. cbn. rewrite Hinh. cbn.
  rewrite Hval. cbn. rewrite Hcreate. cbn.
  set (st1 := mkSt (rd_SetId (roleStateID projectID (RoleName created)) d) w1
                   (cs ++ [CallCreate projectID (mkCustomDBRole roleName actions inheritedRoles)])).
  destruct (Read_total st1) as [[res st'] Hread].
  exists res, st'. split; [exact Hread|].
  pose proof (Read_calls _ _ _ Hread) as Hcalls.
  pose proof (Read_keeps_id _ _ _ Hlaws Hread) as Hid.
  destruct Hlaws as [Hsetid _]. subst st1. cbn in Hcalls, Hid.
  unfold stateIDs in Hcalls. rewrite Hsetid in Hcalls, Hid.
  rewrite Hp, Hr in Hcalls. cbn in Hcalls.
  split; [|exact Hid]. rewrite Hcalls. by rewrite <- (assoc_L app).
Qed.

(** After a successful import the identifier is made of the project part
    and of the name of the role found, so that a Read of the imported
    resource fetches the role under that name. *)
Theorem Import_then_Read
    (st : St) (projectID roleName : string) (found : CustomDBRole) (w1 : World) :
  keepsId → decodes projectID (RoleName found) →
  importParts (rd_Id (st_d st)) = inr (projectID, roleName) →
  roles_Get projectID roleName (st_world st) = (inr found, w1) →
  ∃ ds st1,
    resourceMongoDBAtlasCustomDBRoleImportState st = Some (inr ds, st1)
    ∧ ds = [st_d st1]
    ∧ rd_Id (st_d st1) = roleStateID projectID (RoleName found)
    ∧ ∀ res st2, resourceMongoDBAtlasCustomDBRoleRead st1 = Some (res, st2) →
        st_calls st2
        = (st_calls st ++ [CallGet projectID roleName;
                           CallGet projectID (RoleName found)])%list.
Proof.
  intros [Hsetid Hset] [Hp Hr] Hparts Hget. destruct st as [d w cs]. cbn in *.
  unfold resourceMongoDBAtlasCustomDBRoleImportState. run.
  rewrite Hparts. cbn. rewrite Hget. cbn.
  pose proof (Hset "project_id" (VString projectID)
                (rd_SetId (roleStateID projectID (RoleName found)) d)) as Hid.
  destruct (rd_Set "project_id" _ _) as [d1 e1]; cbn in *.
  rewrite Hsetid in Hid.
  eexists _, _. split; [reflexivity|]. cbn. split; [done|]. split; [done|].
  intros res st2 Hread. apply Read_calls in Hread. cbn in Hread.
  unfold stateIDs in Hread. rewrite Hid, Hp, Hr in Hread. cbn in Hread.
  rewrite Hread. by rewrite <- (assoc_L app).
Qed.

(** *** What the store must hold for expand to return *)

Definition readableAction (v : value) : Prop :=
  ∃ (m : gmap string value) (name : string) (gs : list value),
    v = VMap m ∧ m !! "action" = Some (VString name)
    ∧ m !! "resources" = Some (VSlice gs) ∧ Forall readableResource gs.

Definition readableInheritedRole (v : value) : Prop :=
  ∃ (m : gmap string value) (db role : string),
    v = VMap m ∧ m !! "database_name" = Some (VString db)
    ∧ m !! "role_name" = Some (VString role).

Lemma expandAction_is_Some (v : value) : is_Some (expandAction v) ↔ readableAction v.
Proof.
  unfold expandAction, readableAction, index. split.
  - destruct v as [| | | |m|]; cbn; try by intros [? [=]].
    destruct (m !! "action") as [[| |name| | |]|] eqn:Ha; cbn; try by intros [? [=]].
    destruct (m !! "resources") as [[| | |gs| |]|] eqn:Hr; cbn; try by intros [? [=]].
    destruct (expandActionResources gs) as [rs|] eqn:Hgs; cbn; [|by intros [? [=]]].
    intros _. exists m, name, gs. repeat split; [done..|].
    apply expandActionResources_is_Some. by eexists.
  - intros (m & name & gs & -> & Ha & Hr & Hgs). cbn. rewrite Ha. cbn. rewrite Hr. cbn.
    apply expandActionResources_is_Some in Hgs as [rs ->]. by eexists.
Qed.

Lemma expandInheritedRole_is_Some (v : value) :
  is_Some (expandInheritedRole v) ↔ readableInheritedRole v.
Proof.
  unfold expandInheritedRole, readableInheritedRole, index. split.
  - destruct v as [| | | |m|]; cbn; try by intros [? [=]].
    destruct (m !! "database_name") as [[| |db| | |]|] eqn:Hd; cbn; try by intros [? [=]].
    destruct (m !! "role_name") as [[| |role| | |]|] eqn:Hr; cbn; try by intros [? [=]].
    intros _. by exists m, db, role.
  - intros (m & db & role & -> & Hd & Hr). cbn. rewrite Hd. cbn. rewrite Hr. by eexists.
Qed.

(** [expandActions] and [expandInheritedRoles] return (do not panic)
    exactly when the attribute is unset, or is a [[]interface{}] of readable
    entries; for an unset attribute they return the empty list without
    looking at the value, and what they return has one element per entry. *)
Theorem expand_returns_iff_store_readable (d : ResourceData) :
  (is_Some (expandActions d)
     ↔ (rd_GetOk d "actions").2 = false
       ∨ ∃ gs, (rd_GetOk d "actions").1 = VSlice gs ∧ Forall readableAction gs)
  ∧ (is_Some (expandInheritedRoles d)
     ↔ (rd_GetOk d "inherited_roles").2 = false
       ∨ ∃ gs, (rd_GetOk d "inherited_roles").1 = VSlice gs
               ∧ Forall readableInheritedRole gs)
  ∧ ((rd_GetOk d "actions").2 = false → expandActions d = Some [])
  ∧ ((rd_GetOk d "inherited_roles").2 = false → expandInheritedRoles d = Some [])
  ∧ (∀ gs acts, rd_GetOk d "actions" = (VSlice gs, true) →
       expandActions d = Some acts → length acts = length gs)
  ∧ (∀ gs roles, rd_GetOk d "inherited_roles" = (VSlice gs, true) →
       expandInheritedRoles d = Some roles → length roles = length gs).
Proof.
  unfold expandActions, expandInheritedRoles.
  destruct (rd_GetOk d "actions") as [va oka].
  destruct (rd_GetOk d "inherited_roles") as [vi oki]. cbn.
  split; [|split; [|split; [|split; [|split]]]].
  - destruct oka; [|split; [by left | by eexists]]. split.
    + destruct va as [| | |gs| |]; cbn; try by intros [? [=]].
      intros Hsome. right. exists gs. split; [done|].
      case_bool_decide as Hlen.
      * apply mapM_is_Some in Hsome. eapply Forall_impl; [exact Hsome|].
        intros v Hv. by apply expandAction_is_Some.
      * destruct gs; [constructor | cbn in Hlen; lia].
    + intros [[=] | (gs & -> & Hgs)]. cbn. case_bool_decide; [|by eexists].
      apply mapM_is_Some. eapply Forall_impl; [exact Hgs|].
      intros v Hv. by apply expandAction_is_Some.
  - destruct oki; [|split; [by left | by eexists]]. split.
    + destruct vi as [| | |gs| |]; cbn; try by intros [? [=]].
      intros Hsome. right. exists gs. split; [done|].
      case_bool_decide as Hlen.
      * apply mapM_is_Some in Hsome. eapply Forall_impl; [exact Hsome|].
        intros v Hv. by apply expandInheritedRole_is_Some.
      * destruct gs; [constructor | cbn in Hlen; lia].
    + intros [[=] | (gs & -> & Hgs)]. cbn. case_bool_decide; [|by eexists].
      apply mapM_is_Some. eapply Forall_impl; [exact Hgs|].
      intros v Hv. by apply expandInheritedRole_is_Some.
  - by intros ->.
  - by intros ->.
  - intros gs acts [= -> ->]. cbn. case_bool_decide as Hlen.
    + intros Hm. symmetry. by eapply length_mapM.
    + intros [= <-]. destruct gs; [done | cbn in Hlen; lia].
  - intros gs roles [= -> ->]. cbn. case_bool_decide as Hlen.
    + intros Hm. symmetry. by eapply length_mapM.
    + intros [= <-]. destruct gs; [done | cbn in Hlen; lia].
Qed.

(** *** An identifier that does not decode *)

(** Read, Delete and Update do not check what [decodeStateID] gave them: a
    part that is missing from the decoded map reads as the empty string, and
    the service is called with it. *)
Theorem undecoded_identifier_reaches_service (st : St) :
  decodeStateID (rd_Id (st_d st)) !! "project_id" = None →
  decodeStateID (rd_Id (st_d st)) !! "role_name" = None →
  (∀ res st', resourceMongoDBAtlasCustomDBRoleRead st = Some (res, st') →
     st_calls st' = (st_calls st ++ [CallGet "" ""])%list)
  ∧ (∀ res st', resourceMongoDBAtlasCustomDBRoleDelete st = Some (res, st') →
     st_calls st' = (st_calls st ++ [CallDelete "" ""])%list)
  ∧ (∀ res st', resourceMongoDBAtlasCustomDBRoleUpdate st = Some (res, st') →
     ∃ rest, st_calls st' = (st_calls st ++ CallGet "" "" :: rest)%list).
Proof.
  intros Hp Hr.
  assert (stateIDs (st_d st) = ("", "")) as Hids.
  { unfold stateIDs, part. by rewrite Hp, Hr. }
  destruct st as [d w cs]. cbn [st_d] in Hids. split; [|split].
  - intros res st' Hread. apply Read_calls in Hread. cbn in Hread.
    by rewrite Hids in Hread.
  - intros res st'. unfold resourceMongoDBAtlasCustomDBRoleDelete. run.
    rewrite Hids. cbn.
    destruct (roles_Delete "" "" w) as [[e|] w1]; cbn; by intros [= <- <-].
  - intros res st'. unfold resourceMongoDBAtlasCustomDBRoleUpdate. run.
    rewrite Hids. cbn.
    destruct (roles_Get "" "" w) as [[e|fetched] w1]; cbn;
      [intros [= <- <-]; by exists []|].
    destruct (replaceActions d fetched) as [role1|]; cbn; [|done].
    destruct (validateActions role1) as [err|]; cbn; [intros [= <- <-]; by exists []|].
    destruct (replaceInheritedRoles d role1) as [role2|]; cbn; [|done].
    destruct (roles_Update "" "" role2 w1) as [[e|updated] w2]; cbn.
    + intros [= <- <-]. eexists. by rewrite <- (assoc_L app).
    + intros Hread. apply Read_calls in Hread. cbn in Hread.
      eexists. rewrite Hread. by rewrite <- !(assoc_L app).
Qed.

End Controller.

(** ** A small in-memory store and role service

    One concrete implementation of the two interfaces, on which the
    theorems above are exercised.  The store keeps attributes in a map and
    hands a value back as it was set; an attribute counts as set when it is
    not the zero value of its type.  The role service keeps the roles of one
    project in a list. *)

Record MemData := mkMemData {
  mem_id : string;
  mem_attrs : gmap string value;
  mem_changed : list string }.

Definition isZero (v : value) : bool :=
  match v with
  | VNil => true
  | VBool b => negb b
  | VString s => String.eqb s ""
  | VSlice l => bool_decide (length l = 0)
  | VMap m => bool_decide (size m = 0)
  | VMapSlice l => bool_decide (length l = 0)
  end.

#[export] Instance MemStore : Store MemData := {|
  rd_Get d key := index (mem_attrs d) key;
  rd_GetOk d key := (index (mem_attrs d) key, negb (isZero (index (mem_attrs d) key)));
  rd_HasChange d key := bool_decide (key ∈ mem_changed d);
  rd_Id := mem_id;
  rd_SetId id d := mkMemData id (mem_attrs d) (mem_changed d);
  rd_Set key v d := (mkMemData (mem_id d) (<[key := v]> (mem_attrs d)) (mem_changed d), None);
  encodeStateID ids := part ids "project_id" +:+ "/" +:+ part ids "role_name";
  decodeStateID id :=
    match SplitN id "/" 2 with
    | Some [projectID; roleName] =>
        {[ "project_id" := projectID; "role_name" := roleName ]}
    | _ => ∅
    end |}.

Definition hasName (roleName : string) (role : CustomDBRole) : bool :=
  String.eqb (RoleName role) roleName.

#[export] Instance MemRoles : CustomDBRolesService (list CustomDBRole) := {|
  roles_Create projectID role w := (inr role, role :: w);
  roles_Get projectID roleName w :=
    match find (hasName roleName) w with
    | Some role => (inr role, w)
    | None => (inl (ErrorString "404 (request GET) The specified role does not exist."), w)
    end;
  roles_Update projectID roleName role w :=
    match find (hasName roleName) w with
    | Some _ => (inr role, role :: filter (λ r, negb (hasName roleName r)) w)
    | None => (inl (ErrorString "404 (request PATCH) The specified role does not exist."), w)
    end;
  roles_Delete projectID roleName w :=
    (None, filter (λ r, negb (hasName roleName r)) w) |}.

(** *** Sample data *)

(** A resource entry as the user wrote it: the cluster flag together with a
    database name. *)
Definition clusterWithDb : value :=
  VMap {[ "cluster" := VBool true; "database_name" := VString "sales";
          "collection_name" := VString "" ]}.

(** A scoped entry that lacks its database name. *)
Definition scopedWithoutDb : value :=
  VMap {[ "cluster" := VBool false; "database_name" := VString "";
          "collection_name" := VString "orders" ]}.

Definition scopedEntry : value :=
  VMap {[ "cluster" := VBool false; "database_name" := VString "sales";
          "collection_name" := VString "orders" ]}.

Definition actionsAttr (resources : list value) : value :=
  VSlice [VMap {[ "action" := VString "FIND"; "resources" := VSlice resources ]}].

Definition inheritedAttr : value :=
  VSlice [VMap {[ "database_name" := VString "admin"; "role_name" := VString "read" ]}].

Definition sampleData (resources : list value) (changed : list string) : MemData :=
  mkMemData "5d0f1f73cf09a29120e173cf/reporting"
    {[ "project_id" := VString "5d0f1f73cf09a29120e173cf";
       "role_name" := VString "reporting";
       "actions" := actionsAttr resources;
       "inherited_roles" := inheritedAttr ]}
    changed.

Definition remoteRole : CustomDBRole :=
  mkCustomDBRole "reporting" [mkAction "INSERT" [mkResource "" "" true]] [].

Definition sampleState (resources : list value) (changed : list string)
  : @St MemData (list CustomDBRole) :=
  mkSt (sampleData resources changed) [remoteRole] [].

Definition scopedResource : Resource := mkResource "sales" "orders" false.
Definition sampleActions : list Action := [mkAction "FIND" [scopedResource]].
Definition sampleInherited : list InheritedRole := [mkInheritedRole "admin" "read"].

(** Create and Update on a configuration that validation rejects. *)
Lemma validation_error_precedes_mutation_witness :
  resourceMongoDBAtlasCustomDBRoleCreate (sampleState [scopedWithoutDb] ["actions"])
    = Some (Some errResourceMissing, sampleState [scopedWithoutDb] ["actions"])
  ∧ resourceMongoDBAtlasCustomDBRoleUpdate (sampleState [scopedWithoutDb] ["actions"])
    = Some (Some errResourceMissing,
            mkSt (sampleData [scopedWithoutDb] ["actions"]) [remoteRole]
                 [CallGet "5d0f1f73cf09a29120e173cf" "reporting"]).
Proof.
  split.
  - apply (proj1 validation_error_precedes_mutation
             (sampleState [scopedWithoutDb] ["actions"])
             "5d0f1f73cf09a29120e173cf" "reporting"
             [mkAction "FIND" [mkResource "" "orders" false]] sampleInherited);
      vm_compute; reflexivity.
  - exact (proj2 validation_error_precedes_mutation
             (sampleState [scopedWithoutDb] ["actions"]) remoteRole [remoteRole]
             (mkCustomDBRole "reporting" [mkAction "FIND" [mkResource "" "orders" false]] [])
             errResourceMissing eq_refl eq_refl eq_refl).
Defined.

(** Update with a changed actions field: the fetched role is sent back with
    the local actions list in place of the remote one and the inherited
    roles as fetched, and the operation ends with the re-read. *)
Lemma Update_refines_UpdateSpec_witness :
  ∃ st',
    UpdateSpec (sampleState [scopedEntry] ["actions"]) None st'
    ∧ st_calls st'
      = [CallGet "5d0f1f73cf09a29120e173cf" "reporting";
         CallUpdate "5d0f1f73cf09a29120e173cf" "reporting"
           (mkCustomDBRole "reporting" sampleActions []);
         CallGet "5d0f1f73cf09a29120e173cf" "reporting"].
Proof.
  eexists. split.
  - apply (proj1 (proj1 Update_refines_UpdateSpec _ _ _)). vm_compute. reflexivity.
  - reflexivity.
Defined.

(** C2, as stated, fails.  A resource with the cluster flag set and a
    database and collection flattens to the same entry as the bare flag, and
    no list of entries at all expands to it: flatten followed by expand
    cannot give it back.  In the other direction a generic entry with the
    flag and a database name comes back from expand-then-flatten without the
    name.  Composed as they are, the helpers panic: what flatten writes for
    a scoped resource has no ["cluster"] field, and what [flattenActions]
    writes under ["resources"] is not a [[]interface{}]. *)
Lemma round_trip_loses_scope_of_cluster_resource :
  flattenActionResources [mkResource "sales" "orders" true]
    = flattenActionResources [mkResource "" "" true]
  ∧ (∀ gs, expandActionResources gs ≠ Some [mkResource "sales" "orders" true])
  ∧ expandActionResources [clusterWithDb] = Some [mkResource "" "" true]
  ∧ VMap <$> flattenActionResources [mkResource "" "" true] ≠ [clusterWithDb]
  ∧ expandActionResources (VMap <$> flattenActionResources [scopedResource]) = None
  ∧ mapM expandAction (VMap <$> flattenActions [mkAction "FIND" [mkResource "" "" true]])
    = None.
Proof.
  split; [reflexivity|]. split; [|split; [reflexivity|split; [|split; reflexivity]]].
  - intros gs Hex. unfold expandActionResources in Hex. apply mapM_Some in Hex.
    apply Forall2_cons_inv_r in Hex as (g & gs' & Hg & _ & _).
    apply expandResource_flagOnly in Hg. by destruct Hg as [[=] _].
  - vm_compute. intros [=].
Qed.

(** The helpers composed as they are panic on a scoped resource: its
    flattened entry has no ["cluster"] key, and the type assertion on the
    missing value fails. *)
Lemma expand_of_bare_flattened_entry_panics :
  expandActionResources (VMap <$> flattenActionResources [scopedResource]) = None.
Proof. reflexivity. Qed.

Lemma scopedEntry_carries : carries scopedEntry (flattenResource scopedResource).
Proof.
  eexists. split; [reflexivity|]. split; [|done].
  apply insert_subseteq_l; [reflexivity|]. by apply map_singleton_subseteq_l.
Qed.

Lemma expand_flatten_round_trip_witness :
  expandInheritedRoles (mkMemData "" {[ "inherited_roles" := inheritedAttr ]} [])
    = Some sampleInherited
  ∧ (∃ roles,
       expandInheritedRoles (mkMemData "" {[ "inherited_roles" := inheritedAttr ]} [])
         = Some roles
       ∧ VSlice (storedInheritedRoles (flattenInheritedRoles roles)) = inheritedAttr)
  ∧ expandActionResources [scopedEntry] = Some [scopedResource]
  ∧ expandResource scopedEntry = Some scopedResource
  ∧ Forall2 carries [clusterWithDb] (flattenActionResources [mkResource "" "" true]).
Proof.
  assert (flagOnly scopedResource) as Hflag by (intros [=]).
  pose proof (expand_flatten_round_trip (ResourceData := MemData))
    as (Ht & Hg & Hrs & Hr & Hback).
  split; [|split; [|split; [|split]]].
  - apply (Ht (mkMemData "" {[ "inherited_roles" := inheritedAttr ]} [])
              sampleInherited true); [reflexivity | intros [=]].
  - destruct (Hg (mkMemData "" {[ "inherited_roles" := inheritedAttr ]} [])
                 [VMap {[ "database_name" := VString "admin";
                          "role_name" := VString "read" ]}] true)
      as (roles & Hroles & Hflat); [reflexivity | intros [=] | |].
    + apply Forall_singleton. by exists "admin", "read".
    + exists roles. split; [done|]. by rewrite Hflat.
  - apply (Hrs [scopedResource] [scopedEntry]).
    + by apply Forall_singleton.
    + constructor; [apply scopedEntry_carries | constructor].
  - apply (Hr scopedResource scopedEntry Hflag), scopedEntry_carries.
  - apply (Hback [clusterWithDb] [mkResource "" "" true]). reflexivity.
Defined.

(** A cluster entry that also names a database expands to the bare flag,
    which validation accepts. *)
Lemma expanded_resources_never_exclusive_witness :
  Forall flagOnly [mkResource "" "" true]
  ∧ validateResources [mkResource "" "" true] ≠ Some errClusterExclusive.
Proof.
  exact (expanded_resources_never_exclusive [clusterWithDb] [mkResource "" "" true] eq_refl).
Defined.

(** Import of ["abc-def"] when the project ["abc"] has a role ["def"]. *)
Lemma import_splits_on_first_separator_witness :
  let st := mkSt (mkMemData "abc-def" ∅ []) [mkCustomDBRole "def" [] []] [] in
  st_calls <$> (snd <$> resourceMongoDBAtlasCustomDBRoleImportState st)
    = Some [CallGet "abc" "def"]
  ∧ (mem_attrs ∘ st_d) <$> (snd <$> resourceMongoDBAtlasCustomDBRoleImportState st)
    = Some {[ "project_id" := VString "abc" ]}.
Proof.
  intros st.
  pose proof (proj2 (proj2 (proj2 (proj2
    (import_splits_on_first_separator (ResourceData := MemData)
                                      (World := list CustomDBRole))))) st) as H.
  cbv zeta in H. change (importParts (rd_Id (st_d st))) with
    (inr ("abc", "def") : error + string * string) in H.
  cbn iota beta in H.
  change (roles_Get "abc" "def" (st_world st))
    with (inr (mkCustomDBRole "def" [] []) : error + CustomDBRole, st_world st) in H.
  cbn iota beta in H. rewrite H. split; reflexivity.
Defined.

(** Two offenders in one role: the report is about the first. *)
Lemma validateActions_reports_first_offender_witness :
  validateActions
    (mkCustomDBRole "reporting"
       ([mkAction "FIND" [scopedResource]]
        ++ mkAction "INSERT" ([scopedResource] ++ mkResource "" "orders" false
                                :: [mkResource "sales" "" true])
        :: [mkAction "REMOVE" [mkResource "sales" "orders" true]])
       [])
  = Some errResourceMissing.
Proof.
  assert (wellShaped scopedResource) as Hok.
  { right. repeat split; cbn; congruence. }
  apply (validateActions_reports_first_offender "reporting" []
           [mkAction "FIND" [scopedResource]]
           (mkAction "INSERT" ([scopedResource] ++ mkResource "" "orders" false
                                 :: [mkResource "sales" "" true]))
           [mkAction "REMOVE" [mkResource "sales" "orders" true]]
           [scopedResource] (mkResource "" "orders" false) [mkResource "sales" "" true]).
  - apply Forall_singleton. cbn. by apply Forall_singleton.
  - reflexivity.
  - by apply Forall_singleton.
  - intros [(Hc & _) | (_ & Hd & _)]; cbn in *; congruence.
Defined.

Lemma MemStore_keepsId : @keepsId MemData MemStore.
Proof. split; reflexivity. Qed.

(** Create on a valid configuration. *)
Lemma Create_identifies_by_returned_name_witness :
  ∃ res st',
    resourceMongoDBAtlasCustomDBRoleCreate
      (mkSt (sampleData [scopedEntry] []) ([] : list CustomDBRole) []) = Some (res, st')
    ∧ st_calls st'
      = [CallCreate "5d0f1f73cf09a29120e173cf"
           (mkCustomDBRole "reporting" sampleActions sampleInherited);
         CallGet "5d0f1f73cf09a29120e173cf" "reporting"]
    ∧ rd_Id (st_d st') = "5d0f1f73cf09a29120e173cf/reporting".
Proof.
  exact (Create_identifies_by_returned_name
           (mkSt (sampleData [scopedEntry] []) ([] : list CustomDBRole) [])
           "5d0f1f73cf09a29120e173cf" "reporting" sampleActions sampleInherited
           (mkCustomDBRole "reporting" sampleActions sampleInherited)
           [mkCustomDBRole "reporting" sampleActions sampleInherited]
           MemStore_keepsId (conj eq_refl eq_refl)
           eq_refl eq_refl eq_refl eq_refl eq_refl eq_refl).
Defined.

(** Import of ["abc-def"], then a Read of what was imported. *)
Lemma Import_then_Read_witness :
  let st := mkSt (mkMemData "abc-def" ∅ []) [mkCustomDBRole "def" [] []] [] in
  ∃ ds st1,
    resourceMongoDBAtlasCustomDBRoleImportState st = Some (inr ds, st1)
    ∧ ds = [st_d st1]
    ∧ rd_Id (st_d st1) = "abc/def"
    ∧ ∀ res st2, resourceMongoDBAtlasCustomDBRoleRead st1 = Some (res, st2) →
        st_calls st2 = [CallGet "abc" "def"; CallGet "abc" "def"].
Proof.
  exact (Import_then_Read
           (mkSt (mkMemData "abc-def" ∅ []) [mkCustomDBRole "def" [] []] [])
           "abc" "def" (mkCustomDBRole "def" [] []) [mkCustomDBRole "def" [] []]
           MemStore_keepsId (conj eq_refl eq_refl) eq_refl eq_refl).
Defined.

(** Update with nothing changed locally, on a remote role whose resource
    has the flag and a database: here the "exclusive" error does come back. *)
Lemma exclusive_error_only_for_fetched_actions_witness :
  let st := mkSt (sampleData [scopedEntry] [])
                 [mkCustomDBRole "reporting"
                    [mkAction "FIND" [mkResource "sales" "orders" true]] []] [] in
  fst <$> resourceMongoDBAtlasCustomDBRoleUpdate st = Some (Some errClusterExclusive)
  ∧ rd_HasChange (st_d st) "actions" = false.
Proof.
  intros st. split; [reflexivity|].
  eapply (proj2 (exclusive_error_only_for_fetched_actions
                   (ResourceData := MemData) (World := list CustomDBRole)) st).
  vm_compute. reflexivity.
Defined.

(** An identifier that the codec does not understand. *)
Lemma undecoded_identifier_reaches_service_witness :
  let st := mkSt (mkMemData "garbage" ∅ []) [remoteRole] [] in
  st_calls <$> (snd <$> resourceMongoDBAtlasCustomDBRoleRead st) = Some [CallGet "" ""]
  ∧ ∀ res st', resourceMongoDBAtlasCustomDBRoleDelete st = Some (res, st') →
      st_calls st' = [CallDelete "" ""].
Proof.
  intros st.
  assert (decodeStateID (rd_Id (st_d st)) !! "project_id" = None) as Hp
    by (vm_compute; reflexivity).
  assert (decodeStateID (rd_Id (st_d st)) !! "role_name" = None) as Hr
    by (vm_compute; reflexivity).
  destruct (undecoded_identifier_reaches_service st Hp Hr) as (_ & Hdel & _).
  split; [reflexivity | exact Hdel].
Defined.

(** * The Global Clusters client ([mongodbatlas/global_clusters.go]) *)

Module GlobalClusters.

Record ManagedNamespace := mkManagedNamespace {
  Db : string;
  Collection : string;
  CustomShardKey : string }.

Record CustomZoneMapping := mkCustomZoneMapping {
  Location : string;
  Zone : string }.

Record CustomZoneMappingsRequest := mkCustomZoneMappingsRequest {
  CustomZoneMappings : list CustomZoneMapping }.

Record GlobalCluster := mkGlobalCluster {
  CustomZoneMapping_ : gmap string string;
  ManagedNamespaces : list ManagedNamespace }.

(** The [body interface{}] argument of [NewRequest]; nil is [None]. *)
Inductive Body : Type :=
  | BodyManagedNamespace (createRequest : ManagedNamespace)
  | BodyCustomZoneMappings (createRequest : CustomZoneMappingsRequest).

Record URL := mkURL { Path : string; RawQuery : string }.

Record Request := mkRequest {
  Method : string;
  ReqURL : URL;
  ReqBody : option Body }.

Definition MethodGet : string := "GET".
Definition MethodPost : string := "POST".
Definition MethodDelete : string := "DELETE".

(** ** net/url: [Values], [Add], [Encode], [QueryEscape] *)

Definition isUnreserved (c : ascii) : bool :=
  let n := nat_of_ascii c in
  ((97 <=? n)%nat && (n <=? 122)%nat || (65 <=? n)%nat && (n <=? 90)%nat
   || (48 <=? n)%nat && (n <=? 57)%nat)
  || Ascii.eqb c "-" || Ascii.eqb c "_" || Ascii.eqb c "." || Ascii.eqb c "~".

Definition upperhex (n : nat) : ascii :=
  default "0"%char (String.list_ascii_of_string "0123456789ABCDEF" !! n).

Fixpoint QueryEscape (s : string) : string :=
  match s with
  | EmptyString => EmptyString
  | String c rest =>
      if isUnreserved c then String c (QueryEscape rest)
      else if Ascii.eqb c " " then String "+" (QueryEscape rest)
      else String "%" (String (upperhex (nat_of_ascii c / 16))
                         (String (upperhex (nat_of_ascii c mod 16)) (QueryEscape rest)))
  end.

Definition Add (key v : string) (q : gmap string (list string)) : gmap string (list string) :=
  <[key := (default [] (q !! key) ++ [v])%list]> q.

Definition join (sep : string) (l : list string) : string :=
  match l with
  | [] => ""
  | x :: rest => foldl (λ acc y, acc +:+ sep +:+ y) x rest
  end.

(** [Encode]: keys in sorted order, the values of a key in the order added. *)
Definition Encode (q : gmap string (list string)) : string :=
  let keys := merge_sort String.le (elements (dom q)) in
  join "&" (k ← keys;
            (λ v, QueryEscape k +:+ "=" +:+ QueryEscape v) <$> default [] (q !! k)).

(** ** The client the service wraps

    [s.client] is defined in another file of the library.  What the
    operations need of it is an interface: resolving a path against the base
    URL (which may fail), parsing a raw query, and sending a request, which
    steps the remote [World] and yields the response handle and either an
    error or the decoded body. *)
Class Client (ClientErr Response World : Type) := {
  resolveURL : string → ClientErr + URL;
  ParseQuery : string → gmap string (list string);
  Do : Request → World → (option Response * (ClientErr + GlobalCluster)) * World }.

Section Service.
Context {ClientErr Response World : Type} `{!Client ClientErr Response World}.

(** An [error] is an argument error made by [NewArgError] or an error of
    the client. *)
Inductive error : Type :=
  | ArgError (arg reason : string)
  | ClientError (e : ClientErr).

Definition NewArgError (arg reason : string) : error := ArgError arg reason.

(** Modelled from the spec: [Client.NewRequest], which is not in this file.
    Each operation builds a URL and optionally attaches a JSON body: the
    request has the method given, the URL the path resolves to and the body
    handed in, if any; it fails when the path does not resolve. *)
Definition NewRequest (method urlStr : string) (body : option Body) : error + Request :=
  match resolveURL urlStr with
  | inl e => inl (ClientError e)
  | inr u => inr (mkRequest method u body)
  end.

(** [req.URL.Query()]: the parsed raw query; nothing for an empty one. *)
Definition Query (u : URL) : gmap string (list string) :=
  if String.eqb (RawQuery u) "" then ∅ else ParseQuery (RawQuery u).

(** The remote side and the requests sent so far, oldest first. *)
Record Net := mkNet { world : World; sent : list Request }.

(** What an operation returns: the decoded cluster, the response handle and
    the error, each possibly nil. *)
Definition Result : Type := option GlobalCluster * option Response * option error.

(** [root := new(GlobalCluster); resp, err := s.client.Do(ctx, req, root)]
    and the two returns that follow it in each operation. *)
Definition send (req : Request) (n : Net) : Result * Net :=
  let '((resp, out), w') := Do req (world n) in
  let n' := mkNet w' (sent n ++ [req]) in
  match out with
  | inl err => ((None, resp, Some (ClientError err)), n')
  | inr root => ((Some root, resp, None), n')
  end.

(** [fmt.Sprintf(globalClustersBasePath, groupID, clusterName, last)] *)
Definition globalClustersBasePath (groupID clusterName last : string) : string :=
  "groups/" +:+ groupID +:+ "/clusters/" +:+ clusterName +:+ "/globalWrites/" +:+ last.

Definition Get (groupID clusterName : string) (n : Net) : Result * Net :=
  if String.eqb clusterName "" then
    ((None, None, Some (NewArgError "username" "must be set")), n)
  else
    let path := "groups/" +:+ groupID +:+ "/clusters/" +:+ clusterName +:+ "/globalWrites" in
    match NewRequest MethodGet path None with
    | inl err => ((None, None, Some err), n)
    | inr req => send req n
    end.

Definition AddManagedNamespace (groupID clusterName : string)
    (createRequest : option ManagedNamespace) (n : Net) : Result * Net :=
  match createRequest with
  | None => ((None, None, Some (NewArgError "createRequest" "cannot be nil")), n)
  | Some createRequest =>
      let path := globalClustersBasePath groupID clusterName "managedNamespaces" in
      match NewRequest MethodPost path (Some (BodyManagedNamespace createRequest)) with
      | inl err => ((None, None, Some err), n)
      | inr req => send req n
      end
  end.

Definition DeleteManagedNamespace (groupID clusterName : string)
    (deleteRequest : option ManagedNamespace) (n : Net) : Result * Net :=
  match deleteRequest with
  | None => ((None, None, Some (NewArgError "createRequest" "cannot be nil")), n)
  | Some deleteRequest =>
      let path := globalClustersBasePath groupID clusterName "managedNamespaces" in
      match NewRequest MethodDelete path None with
      | inl err => ((None, None, Some err), n)
      | inr req =>
          let q := Query (ReqURL req) in
          let q := Add "collection" (Collection deleteRequest) q in
          let q := Add "db" (Db deleteRequest) q in
          let req := mkRequest (Method req) (mkURL (Path (ReqURL req)) (Encode q))
                               (ReqBody req) in
          send req n
      end
  end.

Definition AddCustomZoneMappings (groupID clusterName : string)
    (createRequest : option CustomZoneMappingsRequest) (n : Net) : Result * Net :=
  match createRequest with
  | None => ((None, None, Some (NewArgError "createRequest" "cannot be nil")), n)
  | Some createRequest =>
      let path := globalClustersBasePath groupID clusterName "customZoneMapping" in
      match NewRequest MethodPost path (Some (BodyCustomZoneMappings createRequest)) with
      | inl err => ((None, None, Some err), n)
      | inr req => send req n
      end
  end.

Definition DeleteCustomZoneMappings (groupID clusterName : string) (n : Net) : Result * Net :=
  let path := globalClustersBasePath groupID clusterName "customZoneMapping" in
  match NewRequest MethodDelete path None with
  | inl err => ((None, None, Some err), n)
  | inr req => send req n
  end.

(** ** Properties *)

Lemma send_sent (req : Request) (n : Net) :
  sent (send req n).2 = (sent n ++ [req])%list.
Proof. unfold send. destruct (Do _ _) as [[resp [e|root]] w']; reflexivity. Qed.

Lemma send_no_ArgError (req : Request) (n : Net) (arg reason : string) :
  (send req n).1.2 ≠ Some (ArgError arg reason).
Proof. unfold send. destruct (Do _ _) as [[resp [e|root]] w']; cbn; congruence. Qed.

Lemma Encode_collection_db (c d : string) :
  Encode (Add "db" d (Add "collection" c ∅))
  = "collection=" +:+ QueryEscape c +:+ "&db=" +:+ QueryEscape d.
Proof. vm_compute. reflexivity. Qed.

Lemma DeleteManagedNamespace_request (groupID clusterName : string)
    (ns : ManagedNamespace) (n : Net) (u : URL) :
  resolveURL (globalClustersBasePath groupID clusterName "managedNamespaces") = inr u →
  RawQuery u = "" →
  sent (DeleteManagedNamespace groupID clusterName (Some ns) n).2
  = (sent n ++ [mkRequest MethodDelete
                  (mkURL (Path u) ("collection=" +:+ QueryEscape (Collection ns)
                                   +:+ "&db=" +:+ QueryEscape (Db ns)))
                  None])%list.
Proof.
  intros Hu Hq. unfold DeleteManagedNamespace, NewRequest. rewrite Hu. cbn.
  unfold Query. rewrite Hq. cbn [String.eqb]. rewrite Encode_collection_db.
  unfold send. destruct (Do _ _) as [[resp [e|root]] w']; reflexivity.
Qed.

(** Creation goes by body, deletion by query: AddManagedNamespace sends a
    POST whose body is the namespace and whose URL is as resolved. *)
Theorem AddManagedNamespace_sends_body (groupID clusterName : string)
    (ns : ManagedNamespace) (n : Net) (u : URL) :
  resolveURL (globalClustersBasePath groupID clusterName "managedNamespaces") = inr u →
  sent (AddManagedNamespace groupID clusterName (Some ns) n).2
  = (sent n ++ [mkRequest "POST" u (Some (BodyManagedNamespace ns))])%list.
Proof.
  intros Hu. unfold AddManagedNamespace, NewRequest. rewrite Hu. apply send_sent.
Qed.

(** C5.  For a namespace with db ["sales"] and collection ["orders"],
    whatever its shard key, DeleteManagedNamespace sends exactly one
    request: method DELETE, raw query [collection=orders&db=sales] (the
    two pairs in key order), no body.  The URL is the one the client
    resolved for the path, which is assumed to resolve and to carry no query
    of its own. *)
Theorem DeleteManagedNamespace_query (groupID clusterName : string)
    (ns : ManagedNamespace) (n : Net) (u : URL) :
  Db ns = "sales" → Collection ns = "orders" →
  resolveURL (globalClustersBasePath groupID clusterName "managedNamespaces") = inr u →
  RawQuery u = "" →
  sent (DeleteManagedNamespace groupID clusterName (Some ns) n).2
  = (sent n ++ [mkRequest "DELETE" (mkURL (Path u) "collection=orders&db=sales") None])%list.
Proof.
  intros Hdb Hcoll Hu Hq.
  rewrite (DeleteManagedNamespace_request _ _ _ _ u Hu Hq), Hdb, Hcoll. reflexivity.
Qed.

(** For any namespace the two names travel query-escaped, collection first. *)
Theorem DeleteManagedNamespace_sends (groupID clusterName : string)
    (ns : ManagedNamespace) (n : Net) (u : URL) :
  resolveURL (globalClustersBasePath groupID clusterName "managedNamespaces") = inr u →
  RawQuery u = "" →
  sent (DeleteManagedNamespace groupID clusterName (Some ns) n).2
  = (sent n ++ [mkRequest "DELETE"
                  (mkURL (Path u) ("collection=" +:+ QueryEscape (Collection ns)
                                   +:+ "&db=" +:+ QueryEscape (Db ns)))
                  None])%list.
Proof. intros Hu Hq. exact (DeleteManagedNamespace_request _ _ ns n u Hu Hq). Qed.

(** C6.  Get with an empty cluster name returns the argument error at once:
    no cluster, no response, and the network state, with its list of
    requests sent, exactly as before. *)
Theorem Get_empty_clusterName (groupID : string) (n : Net) :
  Get groupID "" n = ((None, None, Some (ArgError "username" "must be set")), n).
Proof. unfold Get. rewrite String.eqb_refl. unfold NewArgError. reflexivity. Qed.

(** C7.  With a nil request argument, AddManagedNamespace,
    DeleteManagedNamespace and AddCustomZoneMappings return the argument
    error and leave the network state untouched.  DeleteCustomZoneMappings
    checks nothing: for every project and cluster name it never returns an
    argument error, and it sends the DELETE request, without body, as soon
    as the client has resolved the path (if the client cannot, its error is
    returned and nothing is sent). *)
Theorem nil_request_is_an_argument_error (groupID clusterName : string) (n : Net) :
  AddManagedNamespace groupID clusterName None n
    = ((None, None, Some (ArgError "createRequest" "cannot be nil")), n)
  ∧ DeleteManagedNamespace groupID clusterName None n
    = ((None, None, Some (ArgError "createRequest" "cannot be nil")), n)
  ∧ AddCustomZoneMappings groupID clusterName None n
    = ((None, None, Some (ArgError "createRequest" "cannot be nil")), n)
  ∧ (∀ arg reason,
       (DeleteCustomZoneMappings groupID clusterName n).1.2 ≠ Some (ArgError arg reason))
  ∧ match resolveURL (globalClustersBasePath groupID clusterName "customZoneMapping") with
    | inr u =>
        sent (DeleteCustomZoneMappings groupID clusterName n).2
        = (sent n ++ [mkRequest "DELETE" u None])%list
    | inl e =>
        DeleteCustomZoneMappings groupID clusterName n
        = ((None, None, Some (ClientError e)), n)
    end.
Proof.
  split; [reflexivity|]. split; [reflexivity|]. split; [reflexivity|].
  unfold DeleteCustomZoneMappings, NewRequest.
  destruct (resolveURL _) as [e|u]; split.
  - intros arg reason. cbn. congruence.
  - reflexivity.
  - intros arg reason. apply send_no_ArgError.
  - apply send_sent.
Qed.

(** C10.  Get checks the cluster name only.  With a non-empty cluster name
    and any project id, the empty one included, the error returned is never
    an argument error, and once the client has resolved the path
    [groups/<groupID>/clusters/<clusterName>/globalWrites] the GET request
    for it is sent. *)
Theorem Get_validates_clusterName_only (groupID clusterName : string) (n : Net) :
  clusterName ≠ "" →
  (∀ arg reason, (Get groupID clusterName n).1.2 ≠ Some (ArgError arg reason))
  ∧ (∀ u, resolveURL ("groups/" +:+ groupID +:+ "/clusters/" +:+ clusterName
                       +:+ "/globalWrites") = inr u →
          sent (Get groupID clusterName n).2 = (sent n ++ [mkRequest "GET" u None])%list)
  ∧ (∀ e, resolveURL ("groups/" +:+ groupID +:+ "/clusters/" +:+ clusterName
                       +:+ "/globalWrites") = inl e →
          Get groupID clusterName n = ((None, None, Some (ClientError e)), n)).
Proof.
  intros Hne. unfold Get, NewRequest.
  apply String.eqb_neq in Hne. rewrite Hne.
  destruct (resolveURL _) as [e|u]; repeat split.
  - intros arg reason. cbn. congruence.
  - intros u [=].
  - intros e' [= <-]. reflexivity.
  - intros arg reason. apply send_no_ArgError.
  - intros u' [= <-]. apply send_sent.
  - intros e' [=].
Qed.

(** ** What the escaped query looks like *)

Fixpoint allChars (P : ascii → bool) (s : string) : bool :=
  match s with
  | EmptyString => true
  | String c rest => P c && allChars P rest
  end.

(** The characters [QueryEscape] can put out. *)
Definition queryChar (c : ascii) : bool :=
  isUnreserved c || Ascii.eqb c "+" || Ascii.eqb c "%".

Lemma escaped_byte_chars (c : ascii) :
  queryChar (upperhex (nat_of_ascii c / 16)) = true
  ∧ queryChar (upperhex (nat_of_ascii c mod 16)) = true.
Proof. destruct c as [[] [] [] [] [] [] [] []]; split; reflexivity. Qed.

Lemma QueryEscape_chars (s : string) : allChars queryChar (QueryEscape s) = true.
Proof.
  induction s as [|c s IH]; [done|]. cbn [QueryEscape].
  destruct (isUnreserved c) eqn:Hu.
  - cbn [allChars]. unfold queryChar at 1. by rewrite Hu, IH.
  - destruct (Ascii.eqb c " ").
    + cbn [allChars]. by rewrite IH.
    + destruct (escaped_byte_chars c) as [H1 H2].
      cbn [allChars]. by rewrite H1, H2, IH.
Qed.

Lemma allChars_no_occurrence (P : ascii → bool) (s x y : string) (c : ascii) :
  allChars P s = true → P c = false → s ≠ x +:+ String c y.
Proof.
  revert x. induction s as [|a s IH]; intros x Hall Hc.
  - by destruct x.
  - cbn in Hall. apply andb_true_iff in Hall as [Ha Hs].
    destruct x as [|b x]; cbn; intros [= -> Heq]; [congruence|].
    by apply (IH x Hs Hc).
Qed.

(** Everything [QueryEscape] returns is made of letters, digits and
    [- _ . ~ + %]: none of the separators of a query ([&], [=], [;], [#],
    [?], the space) can occur in it, so an escaped name cannot add a pair
    to the query.  A name made of letters, digits and [- _ . ~] only is
    left as it is. *)
Theorem QueryEscape_output :
  (∀ s, allChars queryChar (QueryEscape s) = true)
  ∧ (∀ s x y (c : ascii), queryChar c = false → QueryEscape s ≠ x +:+ String c y)
  ∧ queryChar "&" = false ∧ queryChar "=" = false ∧ queryChar ";" = false
  ∧ queryChar "#" = false ∧ queryChar "?" = false ∧ queryChar " " = false
  ∧ (∀ s, allChars isUnreserved s = true → QueryEscape s = s).
Proof.
  split; [exact QueryEscape_chars|]. split.
  { intros s x y c Hc. apply (allChars_no_occurrence queryChar); [apply QueryEscape_chars | exact Hc]. }
  repeat (split; [reflexivity|]).
  induction s as [|c s IH]; [done|]. cbn [allChars QueryEscape].
  intros [Hc Hs]%andb_true_iff. by rewrite Hc, IH.
Qed.

(** Reading the first escaped byte back. *)
Definition hexval (c : ascii) : nat :=
  let n := nat_of_ascii c in
  if (48 <=? n)%nat && (n <=? 57)%nat then n - 48 else n - 55.

Definition unescapeHead (t : string) : option (ascii * string) :=
  match t with
  | EmptyString => None
  | String c rest =>
      if Ascii.eqb c "+" then Some (" "%char, rest)
      else if Ascii.eqb c "%" then
        match rest with
        | String h (String l rest') =>
            Some (ascii_of_nat (hexval h * 16 + hexval l), rest')
        | _ => None
        end
      else Some (c, rest)
  end.

Lemma unescapeHead_QueryEscape (c : ascii) (s : string) :
  unescapeHead (QueryEscape (String c s)) = Some (c, QueryEscape s).
Proof. destruct c as [[] [] [] [] [] [] [] []]; reflexivity. Qed.

(** [QueryEscape] loses nothing: different names have different escapes. *)
Theorem QueryEscape_inj (s1 s2 : string) :
  QueryEscape s1 = QueryEscape s2 → s1 = s2.
Proof.
  revert s2. induction s1 as [|c1 s1 IH]; intros [|c2 s2] Heq; [done| | |].
  - apply (f_equal unescapeHead) in Heq.
    rewrite unescapeHead_QueryEscape in Heq. done.
  - apply (f_equal unescapeHead) in Heq.
    rewrite unescapeHead_QueryEscape in Heq. done.
  - apply (f_equal unescapeHead) in Heq.
    rewrite !unescapeHead_QueryEscape in Heq.
    injection Heq as -> Hrest. f_equal. by apply IH.
Qed.

Lemma split_at_first (c : ascii) (a a' b b' : string) :
  allChars (λ x, negb (Ascii.eqb x c)) a = true →
  allChars (λ x, negb (Ascii.eqb x c)) a' = true →
  a +:+ String c b = a' +:+ String c b' → a = a' ∧ b = b'.
Proof.
  revert a'. induction a as [|x a IH]; intros [|x' a']; cbn.
  - by intros _ _ [= ->].
  - rewrite andb_true_iff, negb_true_iff. intros _ [Hx _] [= <- _].
    by rewrite Ascii.eqb_refl in Hx.
  - rewrite andb_true_iff, negb_true_iff. intros [Hx _] _ [= -> _].
    by rewrite Ascii.eqb_refl in Hx.
  - rewrite !andb_true_iff. intros [_ Ha] [_ Ha'] [= -> Heq].
    destruct (IH a' Ha Ha' Heq) as [-> ->]. done.
Qed.

Lemma allChars_impl (P Q : ascii → bool) (s : string) :
  (∀ c, P c = true → Q c = true) → allChars P s = true → allChars Q s = true.
Proof.
  intros HPQ. induction s as [|c s IH]; [done|]. cbn.
  rewrite !andb_true_iff. intros [Hc Hs]. auto.
Qed.

Lemma QueryEscape_no_amp (s : string) :
  allChars (λ x, negb (Ascii.eqb x "&")) (QueryEscape s) = true.
Proof.
  apply (allChars_impl queryChar); [|apply QueryEscape_chars].
  intros c Hc. destruct (Ascii.eqb_spec c "&") as [->|]; [done | done].
Qed.

(** The request DeleteManagedNamespace sends names its namespace and nothing
    else: two namespaces lead to the same request exactly when they have the
    same collection and the same db.  The custom shard key is not sent. *)
Theorem DeleteManagedNamespace_request_names_namespace
    (groupID clusterName : string) (ns ns' : ManagedNamespace) (n : Net) (u : URL) :
  resolveURL (globalClustersBasePath groupID clusterName "managedNamespaces") = inr u →
  RawQuery u = "" →
  sent (DeleteManagedNamespace groupID clusterName (Some ns) n).2
    = sent (DeleteManagedNamespace groupID clusterName (Some ns') n).2
  ↔ Collection ns = Collection ns' ∧ Db ns = Db ns'.
Proof.
  intros Hu Hq.
  rewrite !(DeleteManagedNamespace_request _ _ _ n u Hu Hq). split.
  - intros Heq. apply app_inv_head in Heq. injection Heq as Heq.
    change (QueryEscape (Collection ns) +:+ String "&" ("db=" +:+ QueryEscape (Db ns))
            = QueryEscape (Collection ns') +:+ String "&" ("db=" +:+ QueryEscape (Db ns')))
      in Heq.
    apply split_at_first in Heq as [Hc Hd]; [|apply QueryEscape_no_amp..].
    apply (inj (String.append "db=")) in Hd.
    split; by apply QueryEscape_inj.
  - by intros [-> ->].
Qed.

(** ** Paths *)

Lemma length_append (a b : string) :
  String.length (a +:+ b) = String.length a + String.length b.
Proof.
  induction a as [|c a IH]; [done|].
  change (S (String.length (a +:+ b)) = S (String.length a + String.length b)).
  by rewrite IH.
Qed.

Lemma append_inv_tail (a a' t : string) : a +:+ t = a' +:+ t → a = a'.
Proof.
  revert a'. induction a as [|c a IH]; intros [|c' a']; cbn; [done| | |].
  - intros H. apply (f_equal String.length) in H.
    rewrite !length_append in H. cbn in H. lia.
  - intros H. apply (f_equal String.length) in H.
    rewrite !length_append in H. cbn in H. lia.
  - intros [= -> H]. f_equal. by apply IH.
Qed.

Definition noSlash (s : string) : bool := allChars (λ x, negb (Ascii.eqb x "/")) s.

(** The path is built by plain interpolation, without escaping.  For
    project ids without a ["/"] it still tells the targets apart: two calls
    of one operation go to the same path only for the same project and the
    same cluster. *)
Theorem globalClustersBasePath_inj (groupID clusterName groupID' clusterName' last : string) :
  noSlash groupID = true → noSlash groupID' = true →
  globalClustersBasePath groupID clusterName last
    = globalClustersBasePath groupID' clusterName' last →
  groupID = groupID' ∧ clusterName = clusterName'.
Proof.
  unfold globalClustersBasePath, noSlash. intros Hg Hg' Heq.
  apply (inj (String.append "groups/")) in Heq.
  change ("/clusters/" +:+ ?x) with (String "/" ("clusters/" +:+ x)) in Heq.
  apply split_at_first in Heq as [-> Heq]; [|done..].
  split; [done|].
  apply (inj (String.append "clusters/")) in Heq.
  by apply append_inv_tail in Heq.
Qed.

(** ** One request per call *)

(** What every operation does with the network: either nothing is sent and
    the call returns an error and no cluster, or exactly one request is
    sent, the remote side steps once with it, the response handle is the
    client's, and the call returns the decoded cluster, or the client's
    error as it is. *)
Definition oneShot (f : Net → Result * Net) : Prop :=
  ∀ n,
    ((f n).2 = n ∧ (f n).1.1.1 = None ∧ is_Some (f n).1.2)
    ∨ ∃ req,
        sent (f n).2 = (sent n ++ [req])%list
        ∧ world (f n).2 = (Do req (world n)).2
        ∧ (f n).1.1.2 = (Do req (world n)).1.1
        ∧ match (Do req (world n)).1.2 with
          | inl e => (f n).1.1.1 = None ∧ (f n).1.2 = Some (ClientError e)
          | inr root => (f n).1.1.1 = Some root ∧ (f n).1.2 = None
          end.

Lemma send_oneShot (req : Request) (n : Net) :
  sent (send req n).2 = (sent n ++ [req])%list
  ∧ world (send req n).2 = (Do req (world n)).2
  ∧ (send req n).1.1.2 = (Do req (world n)).1.1
  ∧ match (Do req (world n)).1.2 with
    | inl e => (send req n).1.1.1 = None ∧ (send req n).1.2 = Some (ClientError e)
    | inr root => (send req n).1.1.1 = Some root ∧ (send req n).1.2 = None
    end.
Proof. unfold send. by destruct (Do req (world n)) as [[resp [e|root]] w']. Qed.

Lemma built_oneShot (r : error + Request) (n : Net) :
  let out := match r with
             | inl err => ((None, None, Some err), n)
             | inr req => send req n
             end in
  (out.2 = n ∧ out.1.1.1 = None ∧ is_Some out.1.2)
  ∨ ∃ req,
      sent out.2 = (sent n ++ [req])%list
      ∧ world out.2 = (Do req (world n)).2
      ∧ out.1.1.2 = (Do req (world n)).1.1
      ∧ match (Do req (world n)).1.2 with
        | inl e => out.1.1.1 = None ∧ out.1.2 = Some (ClientError e)
        | inr root => out.1.1.1 = Some root ∧ out.1.2 = None
        end.
Proof.
  destruct r as [err|req]; cbn.
  - left. by eauto.
  - right. exists req. apply send_oneShot.
Qed.

Lemma operations_oneShot (groupID clusterName : string)
    (namespace : option ManagedNamespace) (mappings : option CustomZoneMappingsRequest) :
  oneShot (Get groupID clusterName)
  ∧ oneShot (AddManagedNamespace groupID clusterName namespace)
  ∧ oneShot (DeleteManagedNamespace groupID clusterName namespace)
  ∧ oneShot (AddCustomZoneMappings groupID clusterName mappings)
  ∧ oneShot (DeleteCustomZoneMappings groupID clusterName).
Proof.
  repeat split; intros n.
  - unfold Get. destruct (String.eqb clusterName ""); [left; cbn; by eauto|].
    apply built_oneShot.
  - unfold AddManagedNamespace. destruct namespace as [ns|]; [|left; cbn; by eauto].
    apply built_oneShot.
  - unfold DeleteManagedNamespace. destruct namespace as [ns|]; [|left; cbn; by eauto].
    destruct (NewRequest _ _ _) as [err|req]; [left; cbn; by eauto|].
    right. eexists. apply send_oneShot.
  - unfold AddCustomZoneMappings. destruct mappings as [zm|]; [|left; cbn; by eauto].
    apply built_oneShot.
  - unfold DeleteCustomZoneMappings. apply built_oneShot.
Qed.

Lemma cluster_iff_no_error (f : Net → Result * Net) (n : Net) :
  oneShot f → (is_Some (f n).1.1.1 ↔ (f n).1.2 = None).
Proof.
  intros Hf. destruct (Hf n) as [(_ & Hc & [e He]) | (req & _ & _ & _ & Hout)].
  - rewrite Hc, He. split; [by intros [? [=]] | done].
  - destruct ((Do req (world n)).1.2) as [e|root]; destruct Hout as [-> ->].
    + split; [by intros [? [=]] | done].
    + split; [done | by eexists].
Qed.

(** Each of the five operations is one-shot: at most one request per call,
    sent once and never again, the requests sent earlier kept, the client's
    error returned as it is.  So a call returns a cluster exactly when it
    returns no error. *)
Theorem each_operation_is_one_shot (groupID clusterName : string)
    (namespace : option ManagedNamespace) (mappings : option CustomZoneMappingsRequest) :
  (oneShot (Get groupID clusterName)
   ∧ oneShot (AddManagedNamespace groupID clusterName namespace)
   ∧ oneShot (DeleteManagedNamespace groupID clusterName namespace)
   ∧ oneShot (AddCustomZoneMappings groupID clusterName mappings)
   ∧ oneShot (DeleteCustomZoneMappings groupID clusterName))
  ∧ ∀ n,
      (is_Some (Get groupID clusterName n).1.1.1
         ↔ (Get groupID clusterName n).1.2 = None)
      ∧ (is_Some (AddManagedNamespace groupID clusterName namespace n).1.1.1
         ↔ (AddManagedNamespace groupID clusterName namespace n).1.2 = None)
      ∧ (is_Some (DeleteManagedNamespace groupID clusterName namespace n).1.1.1
         ↔ (DeleteManagedNamespace groupID clusterName namespace n).1.2 = None)
      ∧ (is_Some (AddCustomZoneMappings groupID clusterName mappings n).1.1.1
         ↔ (AddCustomZoneMappings groupID clusterName mappings n).1.2 = None)
      ∧ (is_Some (DeleteCustomZoneMappings groupID clusterName n).1.1.1
         ↔ (DeleteCustomZoneMappings groupID clusterName n).1.2 = None).
Proof.
  pose proof (operations_oneShot groupID clusterName namespace mappings)
    as (H1 & H2 & H3 & H4 & H5).
  split; [done|]. intros n.
  repeat split; by apply cluster_iff_no_error.
Qed.

(** Whatever the two names are, the query DeleteManagedNamespace sends has
    the two pairs [collection] and [db] and no other: the values are made of
    letters, digits and [- _ . ~ + %], and neither [&] nor [=] is among
    these. *)
Theorem DeleteManagedNamespace_query_has_two_pairs
    (groupID clusterName : string) (ns : ManagedNamespace) (n : Net) (u : URL) :
  resolveURL (globalClustersBasePath groupID clusterName "managedNamespaces") = inr u →
  RawQuery u = "" →
  ∃ collection db : string,
    sent (DeleteManagedNamespace groupID clusterName (Some ns) n).2
    = (sent n ++ [mkRequest "DELETE"
                    (mkURL (Path u) ("collection=" +:+ collection +:+ "&db=" +:+ db))
                    None])%list
    ∧ allChars queryChar collection = true ∧ allChars queryChar db = true
    ∧ queryChar "&" = false ∧ queryChar "=" = false.
Proof.
  intros Hu Hq. exists (QueryEscape (Collection ns)), (QueryEscape (Db ns)).
  split; [exact (DeleteManagedNamespace_request _ _ ns n u Hu Hq)|].
  split; [apply QueryEscape_chars|]. split; [apply QueryEscape_chars|]. done.
Qed.

End Service.

(** ** A client that resolves every path and answers every request *)

#[export] Instance EchoClient : Client string nat unit := {|
  resolveURL urlStr := inr (mkURL ("/api/atlas/v1.0/" +:+ urlStr) "");
  ParseQuery rawQuery := ∅;
  Do req w := ((Some 200, inr (mkGlobalCluster ∅ [])), w) |}.

Definition idle : @Net unit := mkNet tt [].

Lemma DeleteManagedNamespace_query_witness :
  sent (DeleteManagedNamespace "5d0f1f73cf09a29120e173cf" "Cluster0"
          (Some (mkManagedNamespace "sales" "orders" "customerId")) idle).2
  = [mkRequest "DELETE"
       (mkURL "/api/atlas/v1.0/groups/5d0f1f73cf09a29120e173cf/clusters/Cluster0/globalWrites/managedNamespaces"
              "collection=orders&db=sales")
       None].
Proof.
  exact (DeleteManagedNamespace_query "5d0f1f73cf09a29120e173cf" "Cluster0"
           (mkManagedNamespace "sales" "orders" "customerId") idle
           (mkURL "/api/atlas/v1.0/groups/5d0f1f73cf09a29120e173cf/clusters/Cluster0/globalWrites/managedNamespaces" "")
           eq_refl eq_refl eq_refl eq_refl).
Defined.

(** A collection and a database whose names need escaping. *)
Lemma DeleteManagedNamespace_sends_witness :
  sent (DeleteManagedNamespace "p" "Cluster0"
          (Some (mkManagedNamespace "my db" "a&b" "")) idle).2
  = [mkRequest "DELETE"
       (mkURL "/api/atlas/v1.0/groups/p/clusters/Cluster0/globalWrites/managedNamespaces"
              "collection=a%26b&db=my+db")
       None].
Proof.
  exact (DeleteManagedNamespace_sends "p" "Cluster0" (mkManagedNamespace "my db" "a&b" "") idle
           (mkURL "/api/atlas/v1.0/groups/p/clusters/Cluster0/globalWrites/managedNamespaces" "")
           eq_refl eq_refl).
Defined.

Lemma AddManagedNamespace_sends_body_witness :
  sent (AddManagedNamespace "p" "Cluster0"
          (Some (mkManagedNamespace "sales" "orders" "customerId")) idle).2
  = [mkRequest "POST"
       (mkURL "/api/atlas/v1.0/groups/p/clusters/Cluster0/globalWrites/managedNamespaces" "")
       (Some (BodyManagedNamespace (mkManagedNamespace "sales" "orders" "customerId")))].
Proof.
  exact (AddManagedNamespace_sends_body "p" "Cluster0"
           (mkManagedNamespace "sales" "orders" "customerId") idle
           (mkURL "/api/atlas/v1.0/groups/p/clusters/Cluster0/globalWrites/managedNamespaces" "")
           eq_refl).
Defined.

Lemma Get_validates_clusterName_only_witness :
  sent (Get "" "Cluster0" idle).2
  = [mkRequest "GET" (mkURL "/api/atlas/v1.0/groups//clusters/Cluster0/globalWrites" "") None].
Proof.
  assert ("Cluster0" ≠ "") as Hne by (intros [=]).
  exact (proj1 (proj2 (Get_validates_clusterName_only "" "Cluster0" idle Hne)) _ eq_refl).
Defined.

(** Two namespaces that differ in the shard key only: the same request. *)
Lemma DeleteManagedNamespace_request_names_namespace_witness :
  sent (DeleteManagedNamespace "p" "Cluster0"
          (Some (mkManagedNamespace "sales" "orders" "customerId")) idle).2
  = sent (DeleteManagedNamespace "p" "Cluster0"
            (Some (mkManagedNamespace "sales" "orders" "region")) idle).2.
Proof.
  assert (resolveURL (globalClustersBasePath "p" "Cluster0" "managedNamespaces")
          = inr (mkURL "/api/atlas/v1.0/groups/p/clusters/Cluster0/globalWrites/managedNamespaces" ""))
    as Hu by reflexivity.
  apply (DeleteManagedNamespace_request_names_namespace "p" "Cluster0"
           (mkManagedNamespace "sales" "orders" "customerId")
           (mkManagedNamespace "sales" "orders" "region") idle _ Hu eq_refl).
  split; reflexivity.
Defined.

(** A collection name that contains the separators of a query. *)
Lemma DeleteManagedNamespace_query_has_two_pairs_witness :
  ∃ collection db : string,
    sent (DeleteManagedNamespace "p" "Cluster0"
            (Some (mkManagedNamespace "sales" "a&db=b" "")) idle).2
    = [mkRequest "DELETE"
         (mkURL "/api/atlas/v1.0/groups/p/clusters/Cluster0/globalWrites/managedNamespaces"
                ("collection=" +:+ collection +:+ "&db=" +:+ db))
         None]
    ∧ allChars queryChar collection = true ∧ allChars queryChar db = true
    ∧ queryChar "&" = false ∧ queryChar "=" = false.
Proof.
  exact (DeleteManagedNamespace_query_has_two_pairs "p" "Cluster0"
           (mkManagedNamespace "sales" "a&db=b" "") idle
           (mkURL "/api/atlas/v1.0/groups/p/clusters/Cluster0/globalWrites/managedNamespaces" "")
           eq_refl eq_refl).
Defined.

(** Two clusters of one project go to two paths; with a ["/"] in the
    project id two different targets can share one. *)
Lemma globalClustersBasePath_inj_witness :
  globalClustersBasePath "p" "Cluster0" "managedNamespaces"
    ≠ globalClustersBasePath "p" "Cluster1" "managedNamespaces"
  ∧ globalClustersBasePath "a/clusters/b" "c" "managedNamespaces"
    = globalClustersBasePath "a" "b/clusters/c" "managedNamespaces".
Proof.
  split; [|reflexivity]. intros Heq.
  destruct (globalClustersBasePath_inj "p" "Cluster0" "p" "Cluster1" "managedNamespaces"
              eq_refl eq_refl Heq) as [_ Hc].
  discriminate Hc.
Defined.

End GlobalClusters.

(** * The resource schema and its regular expressions

    [resourceMongoDBAtlasCustomDBRole] builds the schema; the [ValidateFunc]
    of [role_name] calls [regexp.MustCompile] three times.  [MustCompile]
    panics when Go's parser ([regexp/syntax], Perl flags) rejects the
    pattern.  The parser belongs to Go's standard library; the part of its
    grammar modelled here covers literals, [. ^ $], groups, [|], the
    repetitions [* + ?], Perl classes, simple bracket classes, and the
    [(?flags)] and [(?flags:] forms.  A pattern that uses anything else is
    [Unmodelled]: the model says nothing about it. *)

Module Regexp.

Inductive parsed : Type :=
  | Accepted
  | Rejected (code : string)   (* the parser's ErrorCode *)
  | Unmodelled.

Definition ErrInvalidCharRange := "invalid character class range".
Definition ErrInvalidPerlOp := "invalid or unsupported Perl syntax".
Definition ErrInvalidRepeatOp := "invalid nested repetition operator".
Definition ErrMissingBracket := "missing closing ]".
Definition ErrMissingParen := "missing closing )".
Definition ErrMissingRepeatArgument := "missing argument to repetition operator".
Definition ErrTrailingBackslash := "trailing backslash at end of expression".
Definition ErrUnexpectedParen := "unexpected )".

Definition isASCII (c : ascii) : bool := (nat_of_ascii c <? 128)%nat.

Definition isalnum (c : ascii) : bool :=
  let n := nat_of_ascii c in
  ((48 <=? n)%nat && (n <=? 57)%nat) || ((65 <=? n)%nat && (n <=? 90)%nat)
  || ((97 <=? n)%nat && (n <=? 122)%nat).

Definition oneOf (chars : string) (c : ascii) : bool :=
  existsb (Ascii.eqb c) (String.list_ascii_of_string chars).

(** [\d \s \w \D \S \W] *)
Definition isPerlClass (c : ascii) : bool := oneOf "dswDSW" c.

(** What [parsePerlFlags] does after ["(?"]: read flags up to [:] or [)]. *)
Inductive flags_result : Type :=
  | FlagsGroup (rest : string)    (* ["(?flags:"]: a group is opened *)
  | FlagsOnly (rest : string)     (* ["(?flags)"]: flags set, no group *)
  | FlagsError.

Fixpoint perlFlags (negated sawFlag : bool) (t : string) : flags_result :=
  match t with
  | EmptyString => FlagsError
  | String c t' =>
      if oneOf "imsU" c then perlFlags negated true t'
      else if Ascii.eqb c "-" then
        if negated then FlagsError else perlFlags true false t'
      else if oneOf ":)" c then
        if negated && negb sawFlag then FlagsError
        else if Ascii.eqb c ":" then FlagsGroup t' else FlagsOnly t'
      else FlagsError
  end.

(** What [parseClass] does after ["["] and an optional ["^"]. *)
Inductive class_result : Type :=
  | ClassEnd (rest : string)
  | ClassError (code : string)
  | ClassUnmodelled.

Fixpoint classItems (first : bool) (t : string) : class_result :=
  match t with
  | EmptyString => ClassError ErrMissingBracket
  | String c t' =>
      if Ascii.eqb c "]" && negb first then ClassEnd t'
      else if negb (isASCII c) then ClassUnmodelled
      else if Ascii.eqb c "[" then
        match t' with
        | String ":" _ => ClassUnmodelled
        | _ => classItems false t'
        end
      else if Ascii.eqb c "\" then
        match t' with
        | EmptyString => ClassError ErrTrailingBackslash
        | String e t'' =>
            if isPerlClass e then classItems false t''
            else if isASCII e && negb (isalnum e) then
              match t'' with
              | String "-" (String "]" _) => classItems false t''
              | String "-" _ => ClassUnmodelled
              | _ => classItems false t''
              end
            else ClassUnmodelled
        end
      else
        match t' with
        | String "-" (String hi t'') =>
            if Ascii.eqb hi "]" then classItems false t'
            else if Ascii.eqb hi "\" || Ascii.eqb hi "[" || negb (isASCII hi) then ClassUnmodelled
            else if (nat_of_ascii hi <? nat_of_ascii c)%nat then ClassError ErrInvalidCharRange
            else classItems false t''
        | _ => classItems false t'
        end
  end.

Definition parseClass (t : string) : class_result :=
  match t with
  | String "^" t' => classItems true t'
  | _ => classItems true t
  end.

(** The top of the parser's stack, as far as a repetition cares: nothing, a
    pseudo-operator (an open parenthesis or a vertical bar), or an operand. *)
Inductive top : Type := TopNone | TopPseudo | TopOperand.

(** The parser's main loop.  [depth] counts the open groups; [lastRepeat]
    says that the previous item was a repetition operator.  Every turn
    consumes input, so [fuel] above the length of the pattern is enough. *)
Fixpoint parseLoop (fuel depth : nat) (tp : top) (lastRepeat : bool) (t : string) : parsed :=
  match fuel with
  | 0 => Unmodelled
  | S fuel =>
      match t with
      | EmptyString => if (depth =? 0)%nat then Accepted else Rejected ErrMissingParen
      | String c t' =>
          if negb (isASCII c) then Unmodelled
          else if Ascii.eqb c "(" then
            match t' with
            | String "?" (String "P" _) => Unmodelled
            | String "?" (String "<" _) => Unmodelled
            | String "?" t'' =>
                match perlFlags false false t'' with
                | FlagsGroup rest => parseLoop fuel (S depth) TopPseudo false rest
                | FlagsOnly rest => parseLoop fuel depth tp false rest
                | FlagsError => Rejected ErrInvalidPerlOp
                end
            | _ => parseLoop fuel (S depth) TopPseudo false t'
            end
          else if Ascii.eqb c "|" then parseLoop fuel depth TopPseudo false t'
          else if Ascii.eqb c ")" then
            match depth with
            | 0 => Rejected ErrUnexpectedParen
            | S depth' => parseLoop fuel depth' TopOperand false t'
            end
          else if Ascii.eqb c "[" then
            match parseClass t' with
            | ClassEnd rest => parseLoop fuel depth TopOperand false rest
            | ClassError code => Rejected code
            | ClassUnmodelled => Unmodelled
            end
          else if oneOf "*+?" c then
            let after := match t' with String "?" t'' => t'' | _ => t' end in
            if lastRepeat then Rejected ErrInvalidRepeatOp
            else match tp with
                 | TopOperand => parseLoop fuel depth TopOperand true after
                 | _ => Rejected ErrMissingRepeatArgument
                 end
          else if Ascii.eqb c "{" then Unmodelled
          else if Ascii.eqb c "\" then
            match t' with
            | EmptyString => Rejected ErrTrailingBackslash
            | String e t'' =>
                if isPerlClass e then parseLoop fuel depth TopOperand false t''
                else if isASCII e && negb (isalnum e)
                then parseLoop fuel depth TopOperand false t''
                else Unmodelled
            end
          else parseLoop fuel depth TopOperand false t'
      end
  end.

Definition Parse (s : string) : parsed :=
  parseLoop (S (String.length s)) 0 TopNone false s.

(** A compiled expression; only its source matters here. *)
Record Regexp := mkRegexp { expr : string }.

(** [MustCompile]: the expression, or a panic with the parser's error code. *)
Inductive outcome (A : Type) : Type :=
  | Returns (a : A)
  | Panics (pattern code : string)
  | Unknown.
Arguments Returns {A} a.
Arguments Panics {A} pattern code.
Arguments Unknown {A}.

Definition MustCompile (str : string) : outcome Regexp :=
  match Parse str with
  | Accepted => Returns (mkRegexp str)
  | Rejected code => Panics str code
  | Unmodelled => Unknown
  end.

Definition andThen {A B} (m : outcome A) (k : A → outcome B) : outcome B :=
  match m with
  | Returns a => k a
  | Panics pattern code => Panics pattern code
  | Unknown => Unknown
  end.

(** The schema of the resource: field name, type and flags; for [role_name]
    the three [validation.StringMatch] checks that [validation.All] joins. *)
Inductive ValueType : Type := TypeString | TypeBool | TypeList | TypeSet.

Inductive Schema : Type :=
  mkSchema (type : ValueType) (required optional forceNew : bool) (minItems : nat)
           (elem : list (string * Schema))
           (validateFunc : list (Regexp * string)).

Definition role_name_ValidateFunc : outcome (list (Regexp * string)) :=
  andThen (MustCompile "[\w\d-]+") (λ r1,
  andThen (MustCompile "^atlasAdmin$") (λ r2,
  andThen (MustCompile "^(?!xgen-).*") (λ r3,
  Returns [ (r1, "`role_name` can contain only letters, digits, underscores, and dashes");
            (r2, "`role_name` cannot be 'atlasAdmin'");
            (r3, "`role_name` cannot start with 'xgen-'") ]))).

Definition resourceMongoDBAtlasCustomDBRole : outcome (list (string * Schema)) :=
  andThen role_name_ValidateFunc (λ validateFunc,
  Returns
    [ ("project_id", mkSchema TypeString true false true 0 [] []);
      ("role_name", mkSchema TypeString true false true 0 [] validateFunc);
      ("actions",
       mkSchema TypeList true false false 1
         [ ("action", mkSchema TypeString true false false 0 [] []);
           ("resources",
            mkSchema TypeSet true false false 0
              [ ("collection_name", mkSchema TypeString false true false 0 [] []);
                ("database_name", mkSchema TypeString false true false 0 [] []);
                ("cluster", mkSchema TypeBool false true false 0 [] []) ] []) ] []);
      ("inherited_roles",
       mkSchema TypeList false true false 1
         [ ("database_name", mkSchema TypeString true false false 0 [] []);
           ("role_name", mkSchema TypeString true false false 0 [] []) ] []) ]).

(** C9 fails on the code.  The first two expressions compile; the third,
    with its look-ahead [(?!], is rejected by the parser, so [MustCompile]
    panics and with it the construction of the schema. *)
Theorem schema_construction_panics :
  MustCompile "[\w\d-]+" = Returns (mkRegexp "[\w\d-]+")
  ∧ MustCompile "^atlasAdmin$" = Returns (mkRegexp "^atlasAdmin$")
  ∧ MustCompile "^(?!xgen-).*" = Panics "^(?!xgen-).*" ErrInvalidPerlOp
  ∧ resourceMongoDBAtlasCustomDBRole = Panics "^(?!xgen-).*" ErrInvalidPerlOp.
Proof. repeat split; reflexivity. Qed.

End Regexp.
